(** * scripts/staking.py: the staking decision procedure

    A shallow embedding of [scripts/staking.py] and the properties of its
    decision procedure.  The script is a straight-line sequence of chain
    reads, operator prompts and transactions, ended by [sys.exit]; it is
    embedded in a small monad with a state (the ledger and the operator's
    pending input), Python exceptions, and a log of the external
    interactions in program order.

    The helpers imported from [utils], the ledger client and the clock are
    external to the script: they are the methods of the class [Environment],
    and every result below holds for every instance of it. *)

From Stdlib Require Import ZArith List String Ascii Bool Lia DecimalString.
Import ListNotations.

Local Open Scope string_scope.
Local Open Scope list_scope.
Local Open Scope Z_scope.

(** ** Python values and builtins used by the script *)

Module Py.

(** The part of the exception hierarchy the script can tell apart:
    [SystemExit] and [KeyboardInterrupt] derive from [BaseException] only,
    everything else the script meets derives from [Exception]. *)
Inductive Exn : Type :=
| SystemExit (code : Z)
| KeyboardInterrupt
| Exception (what : string).

Definition is_Exception (e : Exn) : bool :=
  match e with
  | Exception _ => true
  | _ => false
  end.

(** The result of a call: a value, or a raised exception. *)
Inductive Res (A : Type) : Type :=
| Ok (a : A)
| Raise (e : Exn).
Arguments Ok {A} a.
Arguments Raise {A} e.

(** [bool(s)] on a [str]: false for the empty string only. *)
Definition bool_of_str (s : string) : bool :=
  match s with
  | EmptyString => false
  | String _ _ => true
  end.

(** [str.lower] on the ASCII range. *)
Definition lower_ascii (c : ascii) : ascii :=
  let n := nat_of_ascii c in
  if (Nat.leb 65 n && Nat.leb n 90)%bool then ascii_of_nat (n + 32) else c.

Fixpoint lower (s : string) : string :=
  match s with
  | EmptyString => EmptyString
  | String c s' => String (lower_ascii c) (lower s')
  end.

(** [x in l] for a list of strings, and for a list of integers. *)
Definition str_in (x : string) (l : list string) : bool :=
  existsb (String.eqb x) l.

Definition int_in (x : Z) (l : list Z) : bool :=
  existsb (Z.eqb x) l.

(** [divmod] on integers (floor division, as [Z.div] and [Z.modulo]). *)
Definition divmod (a b : Z) : Z * Z := (a / b, a mod b).

(** [str(n)] for an integer, as an f-string renders it. *)
Definition str_of_int (n : Z) : string :=
  NilZero.string_of_int (Z.to_int n).

End Py.
Export Py.

(** ** The log of external interactions *)

Definition address := string.

(** Read-only queries against a staking contract. *)
Inductive Query : Type :=
| QAvailableRewards (staking_contract_address : address)
| QAvailableStakingSlots (staking_contract_address : address)
| QLivenessPeriod (staking_contract_address : address)
| QMinStakingDuration (staking_contract_address : address)
| QNextCheckpointTs (staking_contract_address : address)
| QServiceIds (staking_contract_address : address)
| QServiceInfo (service_id : Z) (staking_contract_address : address)
| QIsServiceEvicted (service_id : Z) (staking_contract_address : address)
| QIsServiceStaked (service_id : Z) (staking_contract_address : address).

(** The field of the contract state a query reads. *)
Inductive Field : Type :=
| FAvailableRewards | FAvailableSlots | FLivenessPeriod | FMinStakingDuration
| FNextCheckpointTs | FServiceIds | FServiceInfo | FIsEvicted | FIsStaked.

Definition field_of (q : Query) : Field :=
  match q with
  | QAvailableRewards _ => FAvailableRewards
  | QAvailableStakingSlots _ => FAvailableSlots
  | QLivenessPeriod _ => FLivenessPeriod
  | QMinStakingDuration _ => FMinStakingDuration
  | QNextCheckpointTs _ => FNextCheckpointTs
  | QServiceIds _ => FServiceIds
  | QServiceInfo _ _ => FServiceInfo
  | QIsServiceEvicted _ _ => FIsEvicted
  | QIsServiceStaked _ _ => FIsStaked
  end.

Definition Field_eqb (f g : Field) : bool :=
  match f, g with
  | FAvailableRewards, FAvailableRewards
  | FAvailableSlots, FAvailableSlots
  | FLivenessPeriod, FLivenessPeriod
  | FMinStakingDuration, FMinStakingDuration
  | FNextCheckpointTs, FNextCheckpointTs
  | FServiceIds, FServiceIds
  | FServiceInfo, FServiceInfo
  | FIsEvicted, FIsEvicted
  | FIsStaked, FIsStaked => true
  | _, _ => false
  end.

(** The two [input] prompts of the script. *)
Inductive Prompt : Type :=
| PressEnter
| ContinueUnstaking (service_id : Z) (staking_program : string).

(** One constructor per [print] of the script, with the values its f-string
    interpolates. *)
Inductive Msg : Type :=
| MStarting (staking_program : string)
| MCheckingOld (staking_program : string)
| MNotStakedOld (service_id : Z) (staking_program : string)
| MCannotUnstakeYet (service_id : Z) (staking_program : string)
| MStakedOld (service_id : Z) (staking_program : string)
| MBlank
| MTerminating
| MUnstaking (service_id : Z) (staking_program : string)
| MUnstaked (service_id : Z) (staking_program : string)
| MUnstakingOldPrograms
| MStakedFor (staking_program : string) (duration : string)
| MMinDuration (staking_program : string) (duration : string)
| MCheckingRewards (service_id : Z) (staking_program : string)
| MNoRewardsNoStake (service_id : Z)
| MRewardsAvailable (available_rewards : Z) (service_id : Z)
| MStaked (service_id : Z) (staking_program : string)
| MSlotsTaken (staking_contract_address : address) (service_id : Z)
| MWillFinish
| MNotStaked (service_id : Z) (staking_program : string)
| MEvictedWarning (service_id : Z) (staking_program : string)
| MCheckpointWarning (liveness_period : Z) (last_ts next_ts : string)
| MEvictedUnstaking (service_id : Z) (staking_program : string)
| MAlreadyStaked (service_id : Z) (staking_program : string)
| MNoRewardsUnstaking (service_id : Z) (staking_program : string)
| MRemainStaked (service_id : Z)
| MErrorOccurred (what : string)
| MConfirmAndRetry.

Inductive Event (Tx : Type) : Type :=
| EQuery (q : Query)
| ETime
| EBuildStake (service_id : Z) (service_registry_address staking_contract_address : address)
| EBuildUnstake (service_id : Z) (staking_contract_address : address)
| ESend (tx : Tx)
| EInput (p : Prompt)
| EPrint (m : Msg)
| ETraceback
| EUnsetKey (path key : string)
| EEthereumApi (rpc : string)
| EEthereumCrypto (private_key_path : string) (password : option string).
Arguments EQuery {Tx} q.
Arguments ETime {Tx}.
Arguments EBuildStake {Tx} _ _ _.
Arguments EBuildUnstake {Tx} _ _.
Arguments ESend {Tx} tx.
Arguments EInput {Tx} p.
Arguments EPrint {Tx} m.
Arguments ETraceback {Tx}.
Arguments EUnsetKey {Tx} _ _.
Arguments EEthereumApi {Tx} _.
Arguments EEthereumCrypto {Tx} _ _.

(** What the operator does at a prompt; an exhausted list is end of file. *)
Inductive Key : Type :=
| Line (s : string)
| CtrlC.

(** ** The environment of the script

    [W] is the state of the world the script talks to (the ledger behind
    [ledger_api] and the wall clock), [Tx] the transactions [utils] builds.
    Reads leave the world as it is, and so does waiting for the operator:
    within a run the world changes through the run's own transactions only.
    [send_tx_and_wait_for_receipt] returns the world after the transaction,
    whether or not it was confirmed.
    [time_time] is [time.time()] in whole seconds: the script compares it
    with integers only, so the fraction does not change a comparison (it
    only shows in the duration printed when the service was staked in the
    future).  [utcfromtimestamp] is the formatting of a timestamp by
    [datetime], which raises outside the years it supports. *)
Class Environment (W Tx : Type) : Type := {
  time_time : W -> Z;
  utcfromtimestamp : Z -> Res string;
  EthereumApi : W -> string -> Res unit;
  EthereumCrypto : W -> string -> option string -> Res unit;
  get_available_rewards : W -> address -> Res Z;
  get_available_staking_slots : W -> address -> Res Z;
  get_liveness_period : W -> address -> Res Z;
  get_min_staking_duration : W -> address -> Res Z;
  get_next_checkpoint_ts : W -> address -> Res Z;
  get_service_ids : W -> address -> Res (list Z);
  get_service_info : W -> Z -> address -> Res (list Z);
  get_stake_txs : W -> Z -> address -> address -> Res (list Tx);
  get_unstake_txs : W -> Z -> address -> Res (list Tx);
  is_service_evicted : W -> Z -> address -> Res bool;
  is_service_staked : W -> Z -> address -> Res bool;
  send_tx_and_wait_for_receipt : W -> Tx -> Res unit * W
}.

(** ** The monad of the script *)

Record St (W : Type) : Type := mkSt { world : W; stdin : list Key }.
Arguments mkSt {W} world stdin.
Arguments world {W} s.
Arguments stdin {W} s.

Definition M (W Tx A : Type) : Type := St W -> Res A * St W * list (Event Tx).

Section Monad.
Context {W Tx : Type}.

Definition ret {A} (a : A) : M W Tx A := fun st => (Ok a, st, []).

Definition bind {A B} (m : M W Tx A) (f : A -> M W Tx B) : M W Tx B :=
  fun st =>
    match m st with
    | (Ok a, st1, t1) =>
        match f a st1 with
        | (r, st2, t2) => (r, st2, t1 ++ t2)
        end
    | (Raise e, st1, t1) => (Raise e, st1, t1)
    end.

Definition raise {A} (e : Exn) : M W Tx A := fun st => (Raise e, st, []).

(** [sys.exit(code)] raises [SystemExit]. *)
Definition sys_exit {A} (code : Z) : M W Tx A := raise (SystemExit code).

Definition emit (e : Event Tx) : M W Tx unit := fun st => (Ok tt, st, [e]).

Definition print (m : Msg) : M W Tx unit := emit (EPrint m).

(** A call that reads the world and may raise. *)
Definition call {A} (e : Event Tx) (f : W -> Res A) : M W Tx A :=
  fun st => (f (world st), st, [e]).

(** A pure library call that may raise. *)
Definition lift {A} (r : Res A) : M W Tx A := fun st => (r, st, []).

(** [input(prompt)]: the next line of the operator, [EOFError] at end of
    file, [KeyboardInterrupt] when the operator interrupts. *)
Definition input (p : Prompt) : M W Tx string :=
  fun st =>
    match stdin st with
    | [] => (Raise (Exception "EOFError"), st, [EInput p])
    | Line s :: rest => (Ok s, mkSt (world st) rest, [EInput p])
    | CtrlC :: rest => (Raise KeyboardInterrupt, mkSt (world st) rest, [EInput p])
    end.

(** [l[i]]. *)
Definition index {A} (l : list A) (i : nat) : M W Tx A :=
  match nth_error l i with
  | Some x => ret x
  | None => raise (Exception "IndexError")
  end.

Definition when (b : bool) (m : M W Tx unit) : M W Tx unit :=
  if b then m else ret tt.

(** [try: body / except Exception as e: handler(e)]. *)
Definition try_except {A} (body : M W Tx A) (handler : string -> M W Tx A) : M W Tx A :=
  fun st =>
    match body st with
    | (Raise (Exception what), st1, t1) =>
        match handler what st1 with
        | (r, st2, t2) => (r, st2, t1 ++ t2)
        end
    | out => out
    end.

End Monad.

Declare Scope py_scope.
Delimit Scope py_scope with py.
Notation "x <- m ;; k" := (bind m (fun x => k))
  (at level 61, m at next level, right associativity) : py_scope.
Notation "m ;; k" := (bind m (fun _ => k))
  (at level 61, right associativity) : py_scope.
Local Open Scope py_scope.

Section Monad_loops.
Context {W Tx : Type}.

(** [for x in l: body(x)]. *)
Fixpoint for_each {A} (l : list A) (body : A -> M W Tx unit) : M W Tx unit :=
  match l with
  | [] => ret tt
  | x :: l' => body x ;; for_each l' body
  end.

End Monad_loops.

(** ** The script *)

(** [OLD_STAKING_PROGRAMS], in the order the dictionary is written (and
    iterated). *)
Definition OLD_STAKING_PROGRAMS : list (string * address) :=
  [ ("Everest", "0x5add592ce0a1B5DceCebB5Dcac086Cd9F9e3eA5C");
    ("Alpine", "0x2Ef503950Be67a98746F484DA0bBAdA339DF3326");
    ("CoastalTest", "0x97371B1C0cDA1D04dFc43DFb50a04645b7Bc9BEe") ].

Definition _format_duration (duration_seconds : Z) : string :=
  let '(days, remainder) := divmod duration_seconds 86400 in
  let '(hours, remainder) := divmod remainder 3600 in
  let '(minutes, _) := divmod remainder 60 in
  (str_of_int days ++ "D " ++ str_of_int hours ++ "h " ++ str_of_int minutes ++ "m")%string.

(** The command line after [argparse] has bound it: [service_id] converted
    by [int], the other positionals as the strings the caller wrote. *)
Record Argv : Type := mkArgv {
  argv_service_id : Z;
  argv_service_registry_address : string;
  argv_staking_contract_address : string;
  argv_owner_private_key_path : string;
  argv_rpc : string;
  argv_unstake : string;
  argv_password : option string
}.

(** The namespace [args]. *)
Record Args : Type := mkArgs {
  service_id : Z;
  service_registry_address : address;
  staking_contract_address : address;
  owner_private_key_path : string;
  rpc : string;
  unstake : bool;
  password : option string
}.

(** [parser.parse_args()]: the positional [unstake] is declared with
    [type=bool], so [argparse] stores [bool(s)] of the string it was given. *)
Definition parse_args (argv : Argv) : Args :=
  {| service_id := argv_service_id argv;
     service_registry_address := argv_service_registry_address argv;
     staking_contract_address := argv_staking_contract_address argv;
     owner_private_key_path := argv_owner_private_key_path argv;
     rpc := argv_rpc argv;
     unstake := bool_of_str (argv_unstake argv);
     password := argv_password argv |}.

Section Script.
Context {W Tx : Type} {env : Environment W Tx}.

Local Abbreviation M := (M W Tx).

Definition query {A} (q : Query) (f : W -> Res A) : M A := call (EQuery q) f.

(** One call of [send_tx_and_wait_for_receipt]. *)
Definition send (tx : Tx) : M unit :=
  fun st =>
    let '(r, w) := send_tx_and_wait_for_receipt (world st) tx in
    (r, mkSt w (stdin st), [ESend tx]).

Definition _check_unstaking_availability
    (service_id : Z) (staking_contract_address : address)
    (staking_program : string) : M bool :=
  now <- call ETime (fun w => Ok (time_time w)) ;;
  info <- query (QServiceInfo service_id staking_contract_address)
            (fun w => get_service_info w service_id staking_contract_address) ;;
  ts_start <- index info 3 ;;
  minimum_staking_duration <-
    query (QMinStakingDuration staking_contract_address)
      (fun w => get_min_staking_duration w staking_contract_address) ;;
  available_rewards <-
    query (QAvailableRewards staking_contract_address)
      (fun w => get_available_rewards w staking_contract_address) ;;
  if ((now - ts_start) <? minimum_staking_duration) && (available_rewards >? 0)
  then
    print (MStakedFor staking_program (_format_duration (now - ts_start))) ;;
    print (MMinDuration staking_program (_format_duration minimum_staking_duration)) ;;
    ret false
  else ret true.

(** Lines 102-118 of [_unstake_old_program], reached when the service is
    staked on the old program. *)
Definition confirm_and_unstake_old
    (service_id : Z) (staking_contract_address : address)
    (staking_program : string) : M unit :=
  print (MStakedOld service_id staking_program) ;;
  user_input <- input (ContinueUnstaking service_id staking_program) ;;
  let user_input := lower user_input in
  print MBlank ;;
  when (negb (str_in user_input ["yes"; "y"]))
    (print MTerminating ;; sys_exit 1) ;;
  print (MUnstaking service_id staking_program) ;;
  unstake_txs <- call (EBuildUnstake service_id staking_contract_address)
                   (fun w => get_unstake_txs w service_id staking_contract_address) ;;
  for_each unstake_txs send ;;
  print (MUnstaked service_id staking_program).

Definition _unstake_old_program
    (service_id : Z) (staking_contract_address : address)
    (staking_program : string) : M unit :=
  print (MCheckingOld staking_program) ;;
  if String.prefix "Everest" staking_program then
    ids <- query (QServiceIds staking_contract_address)
             (fun w => get_service_ids w staking_contract_address) ;;
    if negb (int_in service_id ids) then
      print (MNotStakedOld service_id staking_program)
    else
      confirm_and_unstake_old service_id staking_contract_address staking_program
  else
    staked <- query (QIsServiceStaked service_id staking_contract_address)
                (fun w => is_service_staked w service_id staking_contract_address) ;;
    if negb staked then
      print (MNotStaked service_id staking_program)
    else
      can_unstake <- _check_unstaking_availability
                       service_id staking_contract_address staking_program ;;
      when (negb can_unstake)
        (print (MCannotUnstakeYet service_id staking_program) ;;
         _ <- input PressEnter ;;
         sys_exit 0) ;;
      confirm_and_unstake_old service_id staking_contract_address staking_program.

Definition _unstake_all_old_programs (service_id : Z) : M unit :=
  print MUnstakingOldPrograms ;;
  for_each OLD_STAKING_PROGRAMS
    (fun '(program, address) => _unstake_old_program service_id address program).

Definition _try_stake_service
    (service_id : Z) (service_registry_address staking_contract_address : address)
    (staking_program : string) : M unit :=
  slots <- query (QAvailableStakingSlots staking_contract_address)
             (fun w => get_available_staking_slots w staking_contract_address) ;;
  if slots >? 0 then
    print (MCheckingRewards service_id staking_program) ;;
    available_rewards <-
      query (QAvailableRewards staking_contract_address)
        (fun w => get_available_rewards w staking_contract_address) ;;
    when (available_rewards =? 0)
      (print (MNoRewardsNoStake service_id) ;; sys_exit 0) ;;
    print (MRewardsAvailable available_rewards service_id) ;;
    stake_txs <-
      call (EBuildStake service_id service_registry_address staking_contract_address)
        (fun w => get_stake_txs w service_id service_registry_address
                    staking_contract_address) ;;
    for_each stake_txs send ;;
    print (MStaked service_id staking_program) ;;
    sys_exit 0
  else
    print (MSlotsTaken staking_contract_address service_id) ;;
    print MWillFinish ;;
    sys_exit 1.

Definition staking_program : string := "Coastal".

(** Lines 249-313 of [main]: the branch [if args.unstake:]. *)
Definition explicit_unstake (args : Args) (next_ts liveness_period last_ts now : Z)
    : M unit :=
  staked <- query (QIsServiceStaked args.(service_id) args.(staking_contract_address))
              (fun w => is_service_staked w args.(service_id)
                          args.(staking_contract_address)) ;;
  when (negb staked)
    (print (MNotStaked args.(service_id) staking_program) ;; sys_exit 0) ;;
  evicted <- query (QIsServiceEvicted args.(service_id) args.(staking_contract_address))
               (fun w => is_service_evicted w args.(service_id)
                           args.(staking_contract_address)) ;;
  when evicted
    (print (MEvictedWarning args.(service_id) staking_program) ;;
     _ <- input PressEnter ;;
     ret tt) ;;
  can_unstake <- _check_unstaking_availability
                   args.(service_id) args.(staking_contract_address) staking_program ;;
  when (negb can_unstake) (print MTerminating ;; sys_exit 1) ;;
  when (now <? next_ts)
    (formatted_last_ts <- lift (utcfromtimestamp last_ts) ;;
     formatted_next_ts <- lift (utcfromtimestamp next_ts) ;;
     print (MCheckpointWarning liveness_period formatted_last_ts formatted_next_ts) ;;
     user_input <- input (ContinueUnstaking args.(service_id) staking_program) ;;
     let user_input := lower user_input in
     print MBlank ;;
     when (negb (str_in user_input ["yes"; "y"]))
       (print MTerminating ;; sys_exit 1)) ;;
  print (MUnstaking args.(service_id) staking_program) ;;
  unstake_txs <-
    call (EBuildUnstake args.(service_id) args.(staking_contract_address))
      (fun w => get_unstake_txs w args.(service_id) args.(staking_contract_address)) ;;
  for_each unstake_txs send ;;
  print (MUnstaked args.(service_id) staking_program) ;;
  sys_exit 0.

(** Lines 318-354 of [main]: the branch taken when the service is staked
    and evicted. *)
Definition evicted_unstake (args : Args) : M unit :=
  print (MEvictedUnstaking args.(service_id) staking_program) ;;
  can_unstake <- _check_unstaking_availability
                   args.(service_id) args.(staking_contract_address) staking_program ;;
  when (negb can_unstake) (print MTerminating ;; sys_exit 1) ;;
  unstake_txs <-
    call (EBuildUnstake args.(service_id) args.(staking_contract_address))
      (fun w => get_unstake_txs w args.(service_id) args.(staking_contract_address)) ;;
  for_each unstake_txs send ;;
  print (MUnstaked args.(service_id) staking_program) ;;
  _try_stake_service args.(service_id) args.(service_registry_address)
    args.(staking_contract_address) staking_program ;;
  sys_exit 0.

(** Lines 240-390 of [main]: everything after the legacy sweep. *)
Definition decision_engine (args : Args) : M unit :=
  next_ts <- query (QNextCheckpointTs args.(staking_contract_address))
               (fun w => get_next_checkpoint_ts w args.(staking_contract_address)) ;;
  liveness_period <-
    query (QLivenessPeriod args.(staking_contract_address))
      (fun w => get_liveness_period w args.(staking_contract_address)) ;;
  let last_ts := next_ts - liveness_period in
  now <- call ETime (fun w => Ok (time_time w)) ;;
  available_rewards <-
    query (QAvailableRewards args.(staking_contract_address))
      (fun w => get_available_rewards w args.(staking_contract_address)) ;;
  when args.(unstake) (explicit_unstake args next_ts liveness_period last_ts now) ;;
  staked <- query (QIsServiceStaked args.(service_id) args.(staking_contract_address))
              (fun w => is_service_staked w args.(service_id)
                          args.(staking_contract_address)) ;;
  if staked then
    evicted <- query (QIsServiceEvicted args.(service_id) args.(staking_contract_address))
                 (fun w => is_service_evicted w args.(service_id)
                             args.(staking_contract_address)) ;;
    when evicted (evicted_unstake args) ;;
    print (MAlreadyStaked args.(service_id) staking_program) ;;
    available_rewards <-
      query (QAvailableRewards args.(staking_contract_address))
        (fun w => get_available_rewards w args.(staking_contract_address)) ;;
    when (available_rewards =? 0)
      (print (MNoRewardsUnstaking args.(service_id) staking_program) ;;
       unstake_txs <-
         call (EBuildUnstake args.(service_id) args.(staking_contract_address))
           (fun w => get_unstake_txs w args.(service_id)
                       args.(staking_contract_address)) ;;
       for_each unstake_txs send ;;
       print (MUnstaked args.(service_id) staking_program) ;;
       sys_exit 0) ;;
    print (MRemainStaked args.(service_id)) ;;
    sys_exit 0
  else
    _try_stake_service args.(service_id) args.(service_registry_address)
      args.(staking_contract_address) staking_program.

(** Lines 198-238 of [main]: the start of the [try] block up to and
    including the legacy sweep. *)
Definition startup_and_sweep (args : Args) : M unit :=
  print (MStarting staking_program) ;;
  call (EEthereumApi args.(rpc)) (fun w => EthereumApi w args.(rpc)) ;;
  call (EEthereumCrypto args.(owner_private_key_path) args.(password))
    (fun w => EthereumCrypto w args.(owner_private_key_path) args.(password)) ;;
  _unstake_all_old_programs args.(service_id).

(** The body of the [try] block of [main]. *)
Definition main_body (argv : Argv) : M unit :=
  let args := parse_args argv in
  startup_and_sweep args ;;
  decision_engine args.

(** The [except Exception as e] block of [main]. *)
Definition handler (what : string) : M unit :=
  print (MErrorOccurred what) ;;
  emit ETraceback ;;
  emit (EUnsetKey "../.trader_runner/.env" "USE_STAKING") ;;
  print MConfirmAndRetry ;;
  sys_exit 1.

Definition main (argv : Argv) : M unit :=
  try_except (main_body argv) handler.

End Script.


(** ** Reading a log *)

Section Log.
Context {Tx : Type}.

Definition is_send (e : Event Tx) : bool :=
  match e with ESend _ => true | _ => false end.

Definition is_build_unstake (e : Event Tx) : bool :=
  match e with EBuildUnstake _ _ => true | _ => false end.

Definition is_build_stake (e : Event Tx) : bool :=
  match e with EBuildStake _ _ _ => true | _ => false end.

Definition is_handler_event (e : Event Tx) : bool :=
  match e with
  | ETraceback | EUnsetKey _ _
  | EPrint (MErrorOccurred _) | EPrint MConfirmAndRetry => true
  | _ => false
  end.

(** The transactions submitted, in order. *)
Fixpoint sent (tr : list (Event Tx)) : list Tx :=
  match tr with
  | [] => []
  | ESend tx :: tr' => tx :: sent tr'
  | _ :: tr' => sent tr'
  end.

(** The contract fields read, in order. *)
Fixpoint fields_read (tr : list (Event Tx)) : list Field :=
  match tr with
  | [] => []
  | EQuery q :: tr' => field_of q :: fields_read tr'
  | _ :: tr' => fields_read tr'
  end.

(** The messages printed, in order. *)
Fixpoint printed (tr : list (Event Tx)) : list Msg :=
  match tr with
  | [] => []
  | EPrint m :: tr' => m :: printed tr'
  | _ :: tr' => printed tr'
  end.

(** The number of unstake (stake) batches built. *)
Definition unstake_batches (tr : list (Event Tx)) : nat :=
  List.length (filter is_build_unstake tr).

Definition stake_batches (tr : list (Event Tx)) : nat :=
  List.length (filter is_build_stake tr).

(** No transaction was submitted. *)
Definition no_transaction (tr : list (Event Tx)) : Prop := sent tr = [].

(** A field is read, then a transaction is submitted, then the field is
    read again. *)
Inductive Phase : Type := NotRead | WasRead | ActedOn.

Fixpoint read_acted_reread_from (ph : Phase) (f : Field) (tr : list (Event Tx)) : bool :=
  match tr with
  | [] => false
  | EQuery q :: tr' =>
      if Field_eqb (field_of q) f then
        match ph with
        | NotRead | WasRead => read_acted_reread_from WasRead f tr'
        | ActedOn => true
        end
      else read_acted_reread_from ph f tr'
  | ESend _ :: tr' =>
      match ph with
      | NotRead => read_acted_reread_from NotRead f tr'
      | WasRead | ActedOn => read_acted_reread_from ActedOn f tr'
      end
  | _ :: tr' => read_acted_reread_from ph f tr'
  end.

Definition read_acted_reread (f : Field) (tr : list (Event Tx)) : bool :=
  read_acted_reread_from NotRead f tr.

(** The phase of that automaton after a run of sends. *)
Definition after_sends (ph : Phase) (l : list Tx) : Phase :=
  match l, ph with
  | [], _ => ph
  | _, NotRead => NotRead
  | _, _ => ActedOn
  end.

(** The old programs the sweep announced it was checking, in order. *)
Fixpoint programs_checked (tr : list (Event Tx)) : list string :=
  match tr with
  | [] => []
  | EPrint (MCheckingOld program) :: tr' => program :: programs_checked tr'
  | _ :: tr' => programs_checked tr'
  end.

(** The events of the [except] block. *)
Definition handler_events (tr : list (Event Tx)) : list (Event Tx) :=
  filter is_handler_event tr.

End Log.

(** ** Snapshots of the staking contract *)

(** The contract state of the specification's data model. *)
Record StakingContractState : Type := mkState {
  isStaked : bool;
  isEvicted : bool;
  stakeStartTimestamp : Z;
  minStakingDuration : Z;
  availableRewards : Z;
  availableSlots : Z;
  nextCheckpointTimestamp : Z;
  livenessPeriod : Z
}.

(** The duration lock of [_check_unstaking_availability]. *)
Definition duration_locked (now : Z) (s : StakingContractState) : Prop :=
  now - stakeStartTimestamp s < minStakingDuration s /\ availableRewards s > 0.

(** The operator's answer, as the script tests it. *)
Definition affirmative (answer : string) : bool := str_in (lower answer) ["yes"; "y"].

Section Snapshot.
Context {W Tx : Type} {env : Environment W Tx}.

(** [get_service_info(...)[3]]. *)
Definition service_ts_start (w : W) (service_id : Z) (addr : address) : Res Z :=
  match get_service_info w service_id addr with
  | Ok info =>
      match nth_error info 3 with
      | Some ts => Ok ts
      | None => Raise (Exception "IndexError")
      end
  | Raise e => Raise e
  end.

(** Every read of the contract at [addr] succeeds in world [w] and returns
    the field of [s]. *)
Definition snapshot (w : W) (service_id : Z) (addr : address)
    (s : StakingContractState) : Prop :=
  is_service_staked w service_id addr = Ok (isStaked s) /\
  is_service_evicted w service_id addr = Ok (isEvicted s) /\
  service_ts_start w service_id addr = Ok (stakeStartTimestamp s) /\
  get_min_staking_duration w addr = Ok (minStakingDuration s) /\
  get_available_rewards w addr = Ok (availableRewards s) /\
  get_available_staking_slots w addr = Ok (availableSlots s) /\
  get_next_checkpoint_ts w addr = Ok (nextCheckpointTimestamp s) /\
  get_liveness_period w addr = Ok (livenessPeriod s).

(** The submitter's loop over a batch, as a function of the world: the
    result, the world it leaves, and the transactions it sent (up to and
    including the first one that failed). *)
Fixpoint submit (w : W) (txs : list Tx) : Res unit * W * list Tx :=
  match txs with
  | [] => (Ok tt, w, [])
  | tx :: rest =>
      match send_tx_and_wait_for_receipt w tx with
      | (Ok _, w') =>
          match submit w' rest with
          | (r, w'', s) => (r, w'', tx :: s)
          end
      | (Raise e, w') => (Raise e, w', [tx])
      end
  end.

Definition submit_result (w : W) (txs : list Tx) : Res unit :=
  fst (fst (submit w txs)).

Definition world_after (w : W) (txs : list Tx) : W :=
  snd (fst (submit w txs)).

Definition submitted (w : W) (txs : list Tx) : list Tx :=
  snd (submit w txs).

(** Every transaction of the batch is confirmed. *)
Definition confirmed (w : W) (txs : list Tx) : Prop :=
  submit_result w txs = Ok tt.

(** The run of a computation from a state: result, final state, log. *)
Definition result {A} (o : Res A * St W * list (Event Tx)) : Res A := fst (fst o).
Definition final {A} (o : Res A * St W * list (Event Tx)) : St W := snd (fst o).
Definition log {A} (o : Res A * St W * list (Event Tx)) : list (Event Tx) := snd o.

End Snapshot.

(** ** A simulated ledger

    An instance of [Environment] small enough to run the script on: one
    record per staking contract, a clock, and three kinds of transaction.
    It is used for the concrete runs of the script below. *)

Module Sim.

Record Contract : Type := mkContract {
  c_staked : list Z;
  c_evicted : list Z;
  c_ts_start : Z;
  c_min_staking_duration : Z;
  c_available_rewards : Z;
  c_available_slots : Z;
  c_next_checkpoint_ts : Z;
  c_liveness_period : Z
}.

Record Chain : Type := mkChain {
  clock : Z;
  congested : bool;
  contracts : list (address * Contract)
}.

Inductive SimTx : Type :=
| Approve (service_id : Z) (service_registry_address staking_contract_address : address)
| Stake (service_id : Z) (staking_contract_address : address)
| Unstake (service_id : Z) (staking_contract_address : address).

Fixpoint find (addr : address) (l : list (address * Contract)) : option Contract :=
  match l with
  | [] => None
  | (a, c) :: l' => if String.eqb a addr then Some c else find addr l'
  end.

Fixpoint update (addr : address) (f : Contract -> Contract)
    (l : list (address * Contract)) : list (address * Contract) :=
  match l with
  | [] => []
  | (a, c) :: l' =>
      if String.eqb a addr then (a, f c) :: l' else (a, c) :: update addr f l'
  end.

Definition read {A} (w : Chain) (addr : address) (f : Contract -> A) : Res A :=
  match find addr (contracts w) with
  | Some c => Ok (f c)
  | None => Raise (Exception "ContractLogicError")
  end.

Definition without (x : Z) (l : list Z) : list Z :=
  filter (fun y => negb (Z.eqb x y)) l.

Definition do_stake (service_id : Z) (c : Contract) : Contract :=
  mkContract (service_id :: c_staked c) (c_evicted c) (c_ts_start c)
    (c_min_staking_duration c) (c_available_rewards c) (c_available_slots c - 1)
    (c_next_checkpoint_ts c) (c_liveness_period c).

Definition do_unstake (service_id : Z) (c : Contract) : Contract :=
  mkContract (without service_id (c_staked c)) (without service_id (c_evicted c))
    (c_ts_start c) (c_min_staking_duration c) (c_available_rewards c)
    (c_available_slots c + 1) (c_next_checkpoint_ts c) (c_liveness_period c).

Definition apply_tx (w : Chain) (tx : SimTx) : Res unit * Chain :=
  if congested w then (Raise (Exception "TimeExhausted"), w)
  else
    match tx with
    | Approve _ _ _ => (Ok tt, w)
    | Stake service_id addr =>
        (Ok tt, mkChain (clock w) false (update addr (do_stake service_id) (contracts w)))
    | Unstake service_id addr =>
        (Ok tt, mkChain (clock w) false (update addr (do_unstake service_id) (contracts w)))
    end.

#[export] Instance env : Environment Chain SimTx := {
  time_time w := clock w;
  utcfromtimestamp ts :=
    if 0 <=? ts then Ok (str_of_int ts) else Raise (Exception "ValueError");
  EthereumApi w rpc := Ok tt;
  EthereumCrypto w path pw := Ok tt;
  get_available_rewards w addr := read w addr c_available_rewards;
  get_available_staking_slots w addr := read w addr c_available_slots;
  get_liveness_period w addr := read w addr c_liveness_period;
  get_min_staking_duration w addr := read w addr c_min_staking_duration;
  get_next_checkpoint_ts w addr := read w addr c_next_checkpoint_ts;
  get_service_ids w addr := read w addr c_staked;
  get_service_info w service_id addr :=
    read w addr (fun c => [0; 0; 0; c_ts_start c; 0; 0]);
  get_stake_txs w service_id registry addr :=
    Ok [Approve service_id registry addr; Stake service_id addr];
  get_unstake_txs w service_id addr := Ok [Unstake service_id addr];
  is_service_evicted w service_id addr :=
    read w addr (fun c => int_in service_id (c_evicted c));
  is_service_staked w service_id addr :=
    read w addr (fun c => int_in service_id (c_staked c));
  send_tx_and_wait_for_receipt := apply_tx
}.

(** An old program nobody is staked on. *)
Definition idle : Contract := mkContract [] [] 0 0 0 10 0 0.

Definition target : address := "0xTarget".
Definition registry : address := "0xRegistry".

(** A chain at time [now] with the old programs [old] and contract [c] at
    the target address. *)
Definition idle_programs : list (address * Contract) :=
  map (fun '(_, a) => (a, idle)) OLD_STAKING_PROGRAMS.

Definition chain (now : Z) (old : list (address * Contract)) (c : Contract) : Chain :=
  mkChain now false (old ++ [(target, c)]).

Definition argv (unstake : string) : Argv :=
  mkArgv 7 registry target "key.txt" "http://rpc" unstake None.

Definition args (unstake : bool) : Args :=
  mkArgs 7 registry target "key.txt" "http://rpc" unstake None.

Definition state_of (s : StakingContractState) : Contract :=
  mkContract (if isStaked s then [7] else []) (if isEvicted s then [7] else [])
    (stakeStartTimestamp s) (minStakingDuration s) (availableRewards s)
    (availableSlots s) (nextCheckpointTimestamp s) (livenessPeriod s).

(** A state of the script: the chain at time [now] with the old programs
    idle and the target contract in state [s], and the operator's input. *)
Definition st_of (now : Z) (s : StakingContractState) (keys : list Key) : St Chain :=
  mkSt (chain now idle_programs (state_of s)) keys.

(** Staked and evicted 50 seconds after staking, rewards left: locked when
    the minimum duration is 100 seconds, free when it is 10. *)
Definition evicted_locked : StakingContractState := mkState true true 50 100 5 2 0 0.
Definition evicted_free : StakingContractState := mkState true true 50 10 5 2 0 0.

(** Staked, not evicted: locked, without rewards, with rewards, and with
    the next checkpoint at 200. *)
Definition staked_locked : StakingContractState := mkState true false 50 100 5 2 0 0.
Definition staked_no_rewards : StakingContractState := mkState true false 50 10 0 2 0 0.
Definition staked_rewards : StakingContractState := mkState true false 50 10 5 2 0 0.
Definition before_checkpoint : StakingContractState := mkState true false 50 10 5 2 200 60.

(** Not staked: no free slot, no rewards, and both. *)
Definition no_slots : StakingContractState := mkState false false 0 10 5 0 0 0.
Definition no_rewards : StakingContractState := mkState false false 0 10 0 2 0 0.
Definition stakeable : StakingContractState := mkState false false 0 10 500 2 0 0.

(** The service is a member of Everest, under what would be a duration
    lock, and staked on nothing else. *)
Definition everest : address := "0x5add592ce0a1B5DceCebB5Dcac086Cd9F9e3eA5C".
Definition alpine : address := "0x2Ef503950Be67a98746F484DA0bBAdA339DF3326".
Definition coastal_test : address := "0x97371B1C0cDA1D04dFc43DFb50a04645b7Bc9BEe".

Definition staked_on_everest : list (address * Contract) :=
  [(everest, state_of staked_locked); (alpine, idle); (coastal_test, idle)].

Definition staked_on_alpine : list (address * Contract) :=
  [(everest, idle); (alpine, state_of staked_locked); (coastal_test, idle)].

(** A chain on which no receipt arrives. *)
Definition congested_state (now : Z) (s : StakingContractState) : St Chain :=
  mkSt (mkChain now true (idle_programs ++ [(target, state_of s)])) [].


(** Staked and evicted, free to unstake, with the next checkpoint at 200. *)
Definition evicted_before_checkpoint : StakingContractState :=
  mkState true true 50 10 5 2 200 60.

(** The service is staked on Alpine, past its minimum duration. *)
Definition free_on_alpine : list (address * Contract) :=
  [(everest, idle); (alpine, state_of staked_rewards); (coastal_test, idle)].


(** The same chain read through a staking contract whose service info has
    three components only. *)
Definition short_info_env : Environment Chain SimTx := {|
  time_time := time_time (Environment:=env);
  utcfromtimestamp := utcfromtimestamp (Environment:=env);
  EthereumApi := EthereumApi (Environment:=env);
  EthereumCrypto := EthereumCrypto (Environment:=env);
  get_available_rewards := get_available_rewards (Environment:=env);
  get_available_staking_slots := get_available_staking_slots (Environment:=env);
  get_liveness_period := get_liveness_period (Environment:=env);
  get_min_staking_duration := get_min_staking_duration (Environment:=env);
  get_next_checkpoint_ts := get_next_checkpoint_ts (Environment:=env);
  get_service_ids := get_service_ids (Environment:=env);
  get_service_info w service_id addr := read w addr (fun c => [0; 0; 0]);
  get_stake_txs := get_stake_txs (Environment:=env);
  get_unstake_txs := get_unstake_txs (Environment:=env);
  is_service_evicted := is_service_evicted (Environment:=env);
  is_service_staked := is_service_staked (Environment:=env);
  send_tx_and_wait_for_receipt := apply_tx
|}.


End Sim.

(** ** Claims of the specification that are measured against the code *)

Section Claims.
Context {W Tx : Type} {env : Environment W Tx}.

(** "For all snapshots where the service is staked and evicted, the engine
    always submits an unstake batch regardless of [availableRewards]". *)
Definition evicted_always_unstakes (args : Args) (st : St W)
    (s : StakingContractState) (txs : list Tx) : Prop :=
  snapshot (world st) args.(service_id) args.(staking_contract_address) s ->
  isStaked s = true -> isEvicted s = true -> unstake args = false ->
  get_unstake_txs (world st) args.(service_id) args.(staking_contract_address) = Ok txs ->
  confirmed (world st) txs ->
  unstake_batches (log (decision_engine args st)) = 1%nat /\
  exists rest, sent (log (decision_engine args st)) = txs ++ rest.

(** "No field of the contract state is read, acted on, and then read again
    within one decision". *)
Definition single_snapshot (args : Args) (st : St W) : Prop :=
  forall f : Field, read_acted_reread f (log (decision_engine args st)) = false.

(** Every event a computation logs, from any state, satisfies [P]. *)
Definition emits_only (P : Event Tx -> bool) {A} (m : M W Tx A) : Prop :=
  forall st, forallb P (log (m st)) = true.

(** A computation that never returns to its caller. *)
Definition never_returns {A} (m : M W Tx A) : Prop :=
  forall st, exists e, result (m st) = Raise e.

End Claims.

(** ** Further readings of a log and of a duration *)

Section Log_more.
Context {Tx : Type}.

(** The prompts put to the operator, in order. *)
Fixpoint prompts (tr : list (Event Tx)) : list Prompt :=
  match tr with
  | [] => []
  | EInput p :: tr' => p :: prompts tr'
  | _ :: tr' => prompts tr'
  end.

Definition query_address (q : Query) : address :=
  match q with
  | QAvailableRewards a | QAvailableStakingSlots a | QLivenessPeriod a
  | QMinStakingDuration a | QNextCheckpointTs a | QServiceIds a
  | QServiceInfo _ a | QIsServiceEvicted _ a | QIsServiceStaked _ a => a
  end.

(** The event concerns no contract, or the staking contract of [args]
    (with its service and its registry where the call names them). *)
Definition targets (args : Args) (e : Event Tx) : Prop :=
  match e with
  | EQuery q =>
      query_address q = args.(staking_contract_address) /\
      match q with
      | QServiceInfo sid _ | QIsServiceEvicted sid _ | QIsServiceStaked sid _ =>
          sid = args.(service_id)
      | _ => True
      end
  | EBuildStake sid reg a =>
      sid = args.(service_id) /\ reg = args.(service_registry_address) /\
      a = args.(staking_contract_address)
  | EBuildUnstake sid a =>
      sid = args.(service_id) /\ a = args.(staking_contract_address)
  | _ => True
  end.

End Log_more.

(** The three numbers [_format_duration] prints. *)
Definition duration_parts (duration_seconds : Z) : Z * Z * Z :=
  let '(days, remainder) := divmod duration_seconds 86400 in
  let '(hours, remainder) := divmod remainder 3600 in
  let '(minutes, _) := divmod remainder 60 in
  (days, hours, minutes).


(** ** tests/test_run_service.py: the parts that do not need a terminal

    The harness drives the service through [pexpect], HTTP and the Docker
    SDK.  Modelled here are the file filter of [setup_class], the
    configuration lookup, and the two container checks, with the Docker SDK
    and [time.sleep] as the methods of the class [Docker]: a method reads
    the state of the container runtime, and only sleeping lets it change. *)

Module Harness.

(** *** Strings *)

(** [p in n] for strings. *)
Fixpoint str_contains (p n : string) : bool :=
  String.prefix p n ||
  match n with
  | EmptyString => false
  | String _ n' => str_contains p n'
  end.

(** [s.endswith(suffix)]. *)
Fixpoint ends_with (s suffix : string) : bool :=
  String.eqb s suffix ||
  match s with
  | EmptyString => false
  | String _ s' => ends_with s' suffix
  end.

(** *** The file filter of [setup_class] *)

Definition exclude_patterns : list string :=
  [".git"; ".pytest_cache"; "__pycache__"; "*.pyc"; ".operate"; "logs"; "*.log"; ".env"].

(** [ignore_patterns(path, names)].  The result is a Python set, of which
    [shutil.copytree] only asks whether a name is in it; it is the list of
    the names selected, in the order of [names]. *)
Definition ignore_patterns (path : string) (names : list string) : list string :=
  filter
    (fun n =>
       existsb
         (fun p =>
            str_contains p n || existsb (fun p => ends_with p n) exclude_patterns)
         exclude_patterns)
    names.

(** *** The configuration of a service *)

Record ServiceConfig : Type := mkServiceConfig {
  container_name : string;
  health_check_url : string
}.

(** [get_service_config]; [HEALTH_CHECK_URL] is imported from
    [operate.constants]. *)
Definition get_service_config (HEALTH_CHECK_URL : string) (config_path : string)
    : ServiceConfig :=
  if str_contains "modius" (lower config_path) then
    mkServiceConfig "optimus" HEALTH_CHECK_URL
  else
    mkServiceConfig "traderpearl" HEALTH_CHECK_URL.

(** *** The container runtime *)

Record Container : Type := mkContainer {
  c_id : string;
  c_name : string;
  c_status : string
}.

(** [D] is the state of the container runtime.
    [inspect_exit_code] is [client.api.inspect_container(id)['State']['ExitCode']],
    [container_logs] is [container.logs(tail=...).decode('utf-8')], and
    [sleep] is what the runtime has become when [time.sleep] returns. *)
Class Docker (D : Type) : Type := {
  from_env : D -> Res unit;
  containers_list : D -> bool -> string -> Res (list Container);
  inspect_exit_code : D -> string -> Res Z;
  container_logs : D -> string -> option Z -> Res string;
  sleep : D -> Z -> D
}.

Inductive Level : Type := Info | Error.

(** One constructor per message the two checks log. *)
Inductive HMsg : Type :=
| MsgChecking (attempt max_retries : Z)
| MsgNoContainers (name : string) (attempt max_retries : Z)
| MsgWaitingRetry (delay : Z)
| MsgContainerStatus (name status : string)
| MsgExited (name : string) (exit_code : Z)
| MsgRestarting (name : string)
| MsgContainerLogs (logs : string)
| MsgWaitingStart (delay : Z)
| MsgAllRunning (name : string)
| MsgSomeNotRunning (delay : Z)
| MsgErrorChecking (what : string)
| MsgShutdownErrors (name : string)
| MsgShutdownPassed
| MsgErrorShutdown (what : string).

Inductive HEvent : Type :=
| ELog (level : Level) (m : HMsg)
| ESleep (seconds : Z)
| EFromEnv
| EList (all : bool) (name : string)
| EInspect (id : string)
| ELogs (id : string) (tail : option Z).

(** The monad of the checks: the runtime, exceptions, and the log. *)
Definition H (D A : Type) : Type := D -> Res A * D * list HEvent.

Section Monad.
Context {D : Type}.

Definition ret {A} (a : A) : H D A := fun d => (Ok a, d, []).

Definition bind {A B} (m : H D A) (f : A -> H D B) : H D B :=
  fun d =>
    match m d with
    | (Ok a, d1, t1) =>
        match f a d1 with
        | (r, d2, t2) => (r, d2, t1 ++ t2)
        end
    | (Raise e, d1, t1) => (Raise e, d1, t1)
    end.

Definition emit (e : HEvent) : H D unit := fun d => (Ok tt, d, [e]).

Definition logger_info (m : HMsg) : H D unit := emit (ELog Info m).

Definition logger_error (m : HMsg) : H D unit := emit (ELog Error m).

(** A call of the SDK: it reads the runtime and may raise. *)
Definition call {A} (e : HEvent) (f : D -> Res A) : H D A :=
  fun d => (f d, d, [e]).

(** [try: body / except Exception as e: handler(str(e))]. *)
Definition try_except {A} (body : H D A) (handler : string -> H D A) : H D A :=
  fun d =>
    match body d with
    | (Raise (Exception what), d1, t1) =>
        match handler what d1 with
        | (r, d2, t2) => (r, d2, t1 ++ t2)
        end
    | out => out
    end.

End Monad.

Declare Scope harness_scope.
Delimit Scope harness_scope with harness.
Notation "x <- m ;; k" := (bind m (fun x => k))
  (at level 61, m at next level, right associativity) : harness_scope.
Notation "m ;; k" := (bind m (fun _ => k))
  (at level 61, right associativity) : harness_scope.
Local Open Scope harness_scope.

Section Loops.
Context {D : Type}.

(** [for x in l: body(x)], where the body may [return] from the enclosing
    function: [Some v] is [return v], [None] goes on to the next element
    (at the end of the body or by [continue]). *)
Fixpoint for_return {A B} (l : list A) (body : A -> H D (option B)) : H D (option B) :=
  match l with
  | [] => ret None
  | x :: l' =>
      r <- body x ;;
      match r with
      | Some v => ret (Some v)
      | None => for_return l' body
      end
  end.

(** [for x in l: body(x)] with a body that does not return. *)
Fixpoint for_each {A} (l : list A) (body : A -> H D unit) : H D unit :=
  match l with
  | [] => ret tt
  | x :: l' => body x ;; for_each l' body
  end.

End Loops.

Section Checks.
Context {D : Type} {docker : Docker D}.
Variable HEALTH_CHECK_URL : string.

Definition time_sleep (seconds : Z) : H D unit :=
  fun d => (Ok tt, sleep d seconds, [ESleep seconds]).

Definition max_retries : Z := 3.
Definition retry_delay : Z := 20.

(** Lines 73-89 of [check_docker_status]: the report on one container. *)
Definition report_container (container : Container) : H D unit :=
  logger_info (MsgContainerStatus (c_name container) (c_status container)) ;;
  if String.eqb (c_status container) "exited" then
    exit_code <- call (EInspect (c_id container))
                   (fun d => inspect_exit_code d (c_id container)) ;;
    logger_error (MsgExited (c_name container) exit_code) ;;
    logs <- call (ELogs (c_id container) (Some 50))
              (fun d => container_logs d (c_id container) (Some 50)) ;;
    logger_error (MsgContainerLogs logs)
  else if String.eqb (c_status container) "restarting" then
    logger_error (MsgRestarting (c_name container)) ;;
    logs <- call (ELogs (c_id container) (Some 50))
              (fun d => container_logs d (c_id container) (Some 50)) ;;
    logger_error (MsgContainerLogs logs)
  else ret tt.

(** What an attempt does when it has not succeeded: [return False] on the
    last attempt, otherwise log, sleep and go on. *)
Definition give_up_or_wait (attempt : Z) (waiting : HMsg) : H D (option bool) :=
  if attempt =? max_retries - 1 then ret (Some false)
  else
    logger_info waiting ;;
    time_sleep retry_delay ;;
    ret None.

(** The body of the [for attempt in range(max_retries)] loop. *)
Definition attempt_body (name : string) (attempt : Z) : H D (option bool) :=
  logger_info (MsgChecking (attempt + 1) max_retries) ;;
  try_except
    (call EFromEnv from_env ;;
     all_containers <- call (EList true name) (fun d => containers_list d true name) ;;
     running_containers <-
       call (EList false name) (fun d => containers_list d false name) ;;
     match all_containers with
     | [] =>
         logger_error (MsgNoContainers name (attempt + 1) max_retries) ;;
         give_up_or_wait attempt (MsgWaitingRetry retry_delay)
     | _ :: _ =>
         for_each all_containers report_container ;;
         match running_containers with
         | [] => give_up_or_wait attempt (MsgWaitingStart retry_delay)
         | _ :: _ =>
             if forallb (fun c => String.eqb (c_status c) "running") running_containers
             then
               logger_info (MsgAllRunning name) ;;
               ret (Some true)
             else give_up_or_wait attempt (MsgSomeNotRunning retry_delay)
         end
     end)
    (fun what =>
       logger_error (MsgErrorChecking what) ;;
       give_up_or_wait attempt (MsgWaitingRetry retry_delay)).

Definition check_docker_status (config_path : string) : H D bool :=
  let service_config := get_service_config HEALTH_CHECK_URL config_path in
  let container_name := container_name service_config in
  r <- for_return [0; 1; 2] (attempt_body container_name) ;;
  match r with
  | Some v => ret v
  | None => ret false
  end.

(** The body of the loop of [check_shutdown_logs]. *)
Definition shutdown_log_body (container : Container) : H D (option bool) :=
  logs <- call (ELogs (c_id container) None)
            (fun d => container_logs d (c_id container) None) ;;
  if str_contains "Error during shutdown" logs
     || str_contains "Failed to gracefully stop" logs
  then
    logger_error (MsgShutdownErrors (c_name container)) ;;
    ret (Some false)
  else ret None.

Definition check_shutdown_logs : H D bool :=
  try_except
    (call EFromEnv from_env ;;
     containers <- call (EList false "traderpearl")
                     (fun d => containers_list d false "traderpearl") ;;
     r <- for_return containers shutdown_log_body ;;
     match r with
     | Some v => ret v
     | None =>
         logger_info MsgShutdownPassed ;;
         ret true
     end)
    (fun what =>
       logger_error (MsgErrorShutdown what) ;;
       ret false).

End Checks.

(** *** Reading the log of a check *)

Fixpoint sleeps (tr : list HEvent) : list Z :=
  match tr with
  | [] => []
  | ESleep s :: tr' => s :: sleeps tr'
  | _ :: tr' => sleeps tr'
  end.

(** The number of times the check connected to the runtime. *)
Fixpoint polls (tr : list HEvent) : nat :=
  match tr with
  | [] => 0
  | EFromEnv :: tr' => S (polls tr')
  | _ :: tr' => polls tr'
  end.

(** The containers whose logs were fetched, in order. *)
Fixpoint logs_fetched (tr : list HEvent) : list string :=
  match tr with
  | [] => []
  | ELogs id _ :: tr' => id :: logs_fetched tr'
  | _ :: tr' => logs_fetched tr'
  end.

(** The runtime after [n] sleeps of [retry_delay] seconds. *)
Fixpoint after_sleeps {D} {docker : Docker D} (n : nat) (d : D) : D :=
  match n with
  | O => d
  | S n' => sleep (after_sleeps n' d) retry_delay
  end.

(** The logs of a container show no shutdown error. *)
Definition clean_logs (logs : string) : bool :=
  negb (str_contains "Error during shutdown" logs
        || str_contains "Failed to gracefully stop" logs).

(** *** [_setup_environment]

    The environment of the child process.  [os.environ] is a map from names
    to values; [os.name], [os.pathsep] and the two ways of finding the
    site-packages directory ([Path(venv_path) / 'Lib' / 'site-packages'] on
    Windows, the matches of the glob ['lib/python*/site-packages'] under
    [venv_path] elsewhere, both as strings) belong to the platform. *)

Definition Environ : Type := string -> option string.

(** [env.pop(key, None)] and [env[key] = value]. *)
Definition pop (key : string) (env : Environ) : Environ :=
  fun k => if String.eqb k key then None else env k.

Definition set (key value : string) (env : Environ) : Environ :=
  fun k => if String.eqb k key then Some value else env k.

Class Platform : Type := {
  os_name : string;
  os_pathsep : ascii;
  nt_site_packages : string -> string;
  glob_site_packages : string -> list string
}.

(** [s.split(sep)] and [sep.join(l)] for a separator of one character. *)
Fixpoint split (sep : ascii) (s : string) : list string :=
  match s with
  | EmptyString => [EmptyString]
  | String c s' =>
      if Ascii.eqb c sep then EmptyString :: split sep s'
      else
        match split sep s' with
        | [] => [String c EmptyString]
        | x :: l => String c x :: l
        end
  end.

Fixpoint join (sep : ascii) (l : list string) : string :=
  match l with
  | [] => EmptyString
  | [x] => x
  | x :: l' => (x ++ String sep (join sep l'))%string
  end.

Fixpoint has_char (c : ascii) (s : string) : bool :=
  match s with
  | EmptyString => false
  | String c' s' => Ascii.eqb c' c || has_char c s'
  end.

Inductive SetupLog : Type :=
| SettingUp
| NoVirtualenv
| SetupCompleted.

(** [_setup_environment]: the result, [cls.temp_env] as the method leaves
    it, and what it logs. *)
Definition _setup_environment {platform : Platform} (environ : Environ)
    : Res unit * Environ * list SetupLog :=
  let venv_path := environ "VIRTUAL_ENV" in
  let temp_env := pop "POETRY_ACTIVE" (pop "VIRTUAL_ENV" environ) in
  match venv_path with
  | Some (String _ _ as venv_path) =>
      let found :=
        if String.eqb os_name "nt" then Ok (nt_site_packages venv_path)
        else
          match glob_site_packages venv_path with
          | site_packages :: _ => Ok site_packages
          | [] => Raise (Exception "IndexError")
          end in
      match found with
      | Raise e => (Raise e, temp_env, [SettingUp])
      | Ok site_packages =>
          let pythonpath :=
            match temp_env "PYTHONPATH" with
            | Some v => v
            | None => EmptyString
            end in
          let temp_env :=
            set "PYTHONPATH"
              (if bool_of_str pythonpath
               then (site_packages ++ ":" ++ pythonpath)%string
               else site_packages)
              temp_env in
          match temp_env "PATH" with
          | None => (Raise (Exception "KeyError"), temp_env, [SettingUp])
          | Some path =>
              let paths := split os_pathsep path in
              let paths :=
                filter (fun p => negb (String.prefix venv_path p)) paths in
              (Ok tt, set "PATH" (join os_pathsep paths) temp_env,
               [SettingUp; SetupCompleted])
          end
      end
  | _ => (Ok tt, temp_env, [SettingUp; NoVirtualenv; SetupCompleted])
  end.

(** A Unix platform with one Python in the virtual environment. *)
#[export] Instance unix : Platform := {
  os_name := "posix";
  os_pathsep := ":"%char;
  nt_site_packages venv := (venv ++ "\Lib\site-packages")%string;
  glob_site_packages venv := [(venv ++ "/lib/python3.10/site-packages")%string]
}.

Definition sample_environ : Environ :=
  set "VIRTUAL_ENV" "/home/u/venv"
    (set "PATH" "/home/u/venv/bin:/usr/bin:/bin"
       (set "POETRY_ACTIVE" "1" (set "HOME" "/home/u" (fun _ => None)))).


(** The run of a check: result, runtime left, log. *)
Definition result {D A} (o : Res A * D * list HEvent) : Res A := fst (fst o).
Definition final {D A} (o : Res A * D * list HEvent) : D := snd (fst o).
Definition log {D A} (o : Res A * D * list HEvent) : list HEvent := snd o.

Section Observations.
Context {D : Type} {docker : Docker D}.

(** In runtime [d] there are containers of that name, some are listed as
    running, and all of those have the status ["running"]. *)
Definition observed_running (d : D) (name : string) : Prop :=
  exists all running,
    containers_list d true name = Ok all /\ all <> [] /\
    containers_list d false name = Ok running /\ running <> [] /\
    forallb (fun c => String.eqb (c_status c) "running") running = true.

(** The logs of the container can be read and show no shutdown error. *)
Definition shuts_down_cleanly (d : D) (c : Container) : Prop :=
  exists logs, container_logs d (c_id c) None = Ok logs /\ clean_logs logs = true.

End Observations.

(** A simulated runtime: the containers now, and what they will be after
    each sleep.  A container carries its exit code and its logs; listing
    filters on the name as a substring. *)
Record SimContainer : Type := mkSim {
  sim_container : Container;
  sim_exit_code : Z;
  sim_logs : string
}.

Record SimRuntime : Type := mkRuntime {
  daemon_up : bool;
  containers_now : list SimContainer;
  containers_later : list (list SimContainer)
}.

Definition sim_find (id : string) (d : SimRuntime) : option SimContainer :=
  List.find (fun c => String.eqb (c_id (sim_container c)) id) (containers_now d).

#[export] Instance sim_docker : Docker SimRuntime := {
  from_env d :=
    if daemon_up d then Ok tt else Raise (Exception "DockerException");
  containers_list d all name :=
    Ok (map sim_container
          (filter
             (fun c =>
                str_contains name (c_name (sim_container c)) &&
                (all || String.eqb (c_status (sim_container c)) "running"))
             (containers_now d)));
  inspect_exit_code d id :=
    match sim_find id d with
    | Some c => Ok (sim_exit_code c)
    | None => Raise (Exception "NotFound")
    end;
  container_logs d id tail :=
    match sim_find id d with
    | Some c => Ok (sim_logs c)
    | None => Raise (Exception "NotFound")
    end;
  sleep d seconds :=
    match containers_later d with
    | [] => d
    | next :: later => mkRuntime (daemon_up d) next later
    end
}.

Definition trader (status logs : string) : SimContainer :=
  mkSim (mkContainer "c1" "traderpearl_abci_0" status) 0 logs.

Definition node (status logs : string) : SimContainer :=
  mkSim (mkContainer "c2" "traderpearl_tm_0" status) 1 logs.

(** The containers come up during the first sleep. *)
Definition starting : SimRuntime :=
  mkRuntime true [trader "created" ""; node "exited" "boot"]
    [[trader "running" ""; node "running" ""]].

(** The containers never come up. *)
Definition stuck_runtime : SimRuntime :=
  mkRuntime true [trader "restarting" "crash"] [].

(** Containers still listed at shutdown, the second with an error in its
    logs. *)
Definition lingering : SimRuntime :=
  mkRuntime true
    [trader "running" "Stopping agent"; node "running" "Error during shutdown: timeout";
     mkSim (mkContainer "c3" "traderpearl_x" "running") 0 "Failed to gracefully stop"]
    [].


(** An environment with a virtual environment and no [PATH]. *)
Definition bare_environ : Environ :=
  set "VIRTUAL_ENV" "/home/u/venv" (fun _ => None).

(** A Unix platform on which the virtual environment has no site-packages
    directory. *)
Definition broken_venv : Platform := {|
  os_name := "posix";
  os_pathsep := ":"%char;
  nt_site_packages venv := (venv ++ "\Lib\site-packages")%string;
  glob_site_packages venv := []
|}.

(** The containers are up. *)
Definition healthy : SimRuntime :=
  mkRuntime true [trader "running" ""; node "running" ""] [].


End Harness.


(** ** Properties *)

Local Arguments nth_error : simpl never.
Local Arguments str_in : simpl never.
Local Arguments int_in : simpl never.
Local Arguments String.prefix : simpl nomatch.
Local Arguments _format_duration : simpl never.

Section Proofs.
Context {W Tx : Type} {env : Environment W Tx}.

Local Arguments _try_stake_service : simpl never.

(** *** The submitter's loop *)

Lemma for_each_send (txs : list Tx) (st : St W) :
  for_each txs send st =
  (submit_result (world st) txs,
   mkSt (world_after (world st) txs) (stdin st),
   map ESend (submitted (world st) txs)).
Proof.
  revert st. induction txs as [|tx txs IH]; intros [w i]; cbn.
  - reflexivity.
  - unfold bind, send, world_after, submit_result, submitted in *. cbn.
    destruct (send_tx_and_wait_for_receipt w tx) as [[u|e] w']; cbn.
    + rewrite IH. cbn. destruct (submit w' txs) as [[r w''] s]; reflexivity.
    + reflexivity.
Qed.

Lemma submitted_confirmed (w : W) (txs : list Tx) :
  confirmed w txs -> submitted w txs = txs.
Proof.
  unfold confirmed, submit_result, submitted. revert w.
  induction txs as [|tx txs IH]; intros w; cbn; [reflexivity|].
  destruct (send_tx_and_wait_for_receipt w tx) as [[u|e] w']; cbn.
  - specialize (IH w'). destruct (submit w' txs) as [[r w''] s]; cbn in *.
    intros H. now rewrite IH.
  - discriminate.
Qed.

(** *** Logs *)

Lemma sent_sends (l : list Tx) (rest : list (Event Tx)) :
  sent (map ESend l ++ rest) = l ++ sent rest.
Proof. induction l; cbn; congruence. Qed.

Lemma fields_read_sends (l : list Tx) (rest : list (Event Tx)) :
  fields_read (map ESend l ++ rest) = fields_read rest.
Proof. induction l; cbn; congruence. Qed.

Lemma printed_sends (l : list Tx) (rest : list (Event Tx)) :
  printed (map ESend l ++ rest) = printed rest.
Proof. induction l; cbn; congruence. Qed.

Lemma build_unstake_sends (l : list Tx) (rest : list (Event Tx)) :
  filter is_build_unstake (map ESend l ++ rest) = filter is_build_unstake rest.
Proof. induction l; cbn; congruence. Qed.

Lemma build_stake_sends (l : list Tx) (rest : list (Event Tx)) :
  filter is_build_stake (map ESend l ++ rest) = filter is_build_stake rest.
Proof. induction l; cbn; congruence. Qed.

Lemma read_acted_reread_sends (ph : Phase) (f : Field) (l : list Tx)
    (rest : list (Event Tx)) :
  read_acted_reread_from ph f (map ESend l ++ rest) =
  read_acted_reread_from (after_sends ph l) f rest.
Proof.
  revert ph. induction l as [|tx l IH]; intros ph; cbn.
  - destruct ph; reflexivity.
  - destruct ph; rewrite IH; destruct l; reflexivity.
Qed.

Lemma read_acted_reread_only_sends (ph : Phase) (f : Field) (l : list Tx) :
  read_acted_reread_from ph f (map ESend l) = false.
Proof.
  rewrite <- (app_nil_r (map ESend l)), read_acted_reread_sends. reflexivity.
Qed.

(** *** Snapshots *)

Lemma service_ts_start_inv (w : W) (sid : Z) (addr : address) (ts : Z) :
  service_ts_start w sid addr = Ok ts ->
  exists info, get_service_info w sid addr = Ok info /\ nth_error info 3 = Some ts.
Proof.
  unfold service_ts_start. destruct (get_service_info w sid addr) as [info|e];
    [|discriminate].
  destruct (nth_error info 3) as [x|] eqn:E; [|discriminate].
  intros [= <-]. eauto.
Qed.

Lemma duration_locked_true (now : Z) (s : StakingContractState) :
  duration_locked now s ->
  (now - stakeStartTimestamp s <? minStakingDuration s) && (availableRewards s >? 0) = true.
Proof.
  intros [H1 H2]. apply andb_true_intro. split.
  - now apply Z.ltb_lt.
  - apply Z.gtb_lt. lia.
Qed.

Lemma duration_locked_false (now : Z) (s : StakingContractState) :
  ~ duration_locked now s ->
  (now - stakeStartTimestamp s <? minStakingDuration s) && (availableRewards s >? 0) = false.
Proof.
  intros H. apply not_true_is_false. intros E. apply H.
  apply andb_prop in E as [E1 E2]. split.
  - now apply Z.ltb_lt.
  - apply Z.gtb_lt in E2. lia.
Qed.

(** *** Symbolic execution of the script *)

Ltac unfold_script :=
  unfold decision_engine, explicit_unstake, evicted_unstake, _unstake_old_program,
    confirm_and_unstake_old, _try_stake_service, _check_unstaking_availability,
    query, call, print, emit, sys_exit, when, index, raise, ret, lift, input, bind,
    result, final, log.

(** The same, with the stake attempt kept as one step. *)
Ltac unfold_engine :=
  unfold decision_engine, explicit_unstake, evicted_unstake,
    _check_unstaking_availability,
    query, call, print, emit, sys_exit, when, index, raise, ret, lift, input, bind,
    result, final, log.

(** The scrutinee the evaluation of a term is waiting for. *)
Ltac stuck t :=
  lazymatch t with
  | match ?x with Ok _ => _ | Raise _ => _ end => stuck x
  | match ?x with Some _ => _ | None => _ end => stuck x
  | match ?x with SystemExit _ => _ | KeyboardInterrupt => _ | Exception _ => _ end =>
      stuck x
  | match ?x with [] => _ | _ :: _ => _ end => stuck x
  | match ?x with Line _ => _ | CtrlC => _ end => stuck x
  | match ?x with pair _ _ => _ end => stuck x
  | if ?b then _ else _ => stuck b
  | negb ?b => stuck b
  | ?f ?x => let r := stuck f in lazymatch r with f => t | _ => r end
  | _ => t
  end.

(** One step on every path: a goal [P o] is split on what [o] waits for. *)
Ltac exec_step :=
  lazymatch goal with
  | |- ?P ?o =>
      lazymatch o with (_, _) => fail | _ => idtac end;
      let x := stuck o in
      lazymatch x with
      | for_each ?l send ?st => rewrite (for_each_send l st)
      | _ => destruct x eqn:?
      end
  end; cbn.

(** All paths of the computation [o] in the goal. *)
Ltac all_paths o :=
  let P := fresh "P" in
  let HP := fresh "HP" in
  pattern o;
  match goal with |- ?Q _ => remember Q as P eqn:HP end;
  unfold_script; cbn; repeat exec_step; subst P; cbn beta;
  unfold result, final, log; cbn [fst snd].

(** One step on one path: what [o] waits for is given by a hypothesis, or
    is a comparison the hypotheses decide. *)
Ltac path_step :=
  lazymatch goal with
  | |- ?P ?o =>
      lazymatch o with (_, _) => fail | _ => idtac end;
      let x := stuck o in
      lazymatch x with
      | for_each ?l send ?st => rewrite (for_each_send l st)
      | _ =>
          match goal with
          | H : x = _ |- _ => rewrite H
          | _ =>
              lazymatch x with
              | ?a >? ?b => destruct (Z.gtb_spec a b); try lia
              | ?a <? ?b => destruct (Z.ltb_spec a b); try lia
              | ?a =? ?b => destruct (Z.eqb_spec a b); try lia
              end
          end
      end
  end; cbn.

Ltac follow_path unfolding o :=
  let P := fresh "P" in
  let HP := fresh "HP" in
  pattern o;
  match goal with |- ?Q _ => remember Q as P eqn:HP end;
  unfolding; cbn; repeat path_step; subst P; cbn beta;
  unfold result, final, log; cbn [fst snd].

(** The path of the computation [o] in the goal that the hypotheses select. *)
Ltac one_path o := follow_path ltac:(idtac; unfold_script) o.

(** The same for the run of the engine the goal is about. *)
Ltac engine_path :=
  match goal with
  | |- context [decision_engine ?a ?st] => one_path (decision_engine a st)
  end.

Ltac simpl_log :=
  unfold unstake_batches, stake_batches; cbn;
  rewrite ?sent_sends, ?fields_read_sends, ?printed_sends, ?build_unstake_sends,
    ?build_stake_sends;
  cbn; rewrite ?app_nil_r.

Ltac simpl_records :=
  cbn [service_id service_registry_address staking_contract_address unstake
       world stdin isStaked isEvicted stakeStartTimestamp minStakingDuration
       availableRewards availableSlots nextCheckpointTimestamp livenessPeriod] in *.

Ltac open_snapshot H :=
  let Hts := fresh "Hts" in
  let info := fresh "info" in
  unfold snapshot in H; simpl_records;
  destruct H as (? & ? & Hts & ? & ? & ? & ? & ?);
  apply service_ts_start_inv in Hts as (info & ? & ?).

(** *** The stake attempt *)

(** C5: the stake attempt tests the free slots first and ends with status 1
    without reading the rewards or sending anything when there is none;
    otherwise it reads the rewards and ends with status 0 without sending
    anything when they are zero; otherwise it builds one stake batch from
    the registry and contract addresses, sends each transaction of it in
    order, waiting for its receipt, and ends with status 0. *)
Theorem try_stake_service_cases
    (service_id : Z) (service_registry_address staking_contract_address : address)
    (program : string) (st : St W) (slots : Z) :
  get_available_staking_slots (world st) staking_contract_address = Ok slots ->
  let o := _try_stake_service service_id service_registry_address
             staking_contract_address program st in
  (slots <= 0 ->
     result o = Raise (SystemExit 1) /\ final o = st /\
     fields_read (log o) = [FAvailableSlots] /\
     sent (log o) = [] /\ stake_batches (log o) = 0%nat) /\
  (slots > 0 ->
     get_available_rewards (world st) staking_contract_address = Ok 0 ->
     result o = Raise (SystemExit 0) /\ final o = st /\
     fields_read (log o) = [FAvailableSlots; FAvailableRewards] /\
     sent (log o) = [] /\ stake_batches (log o) = 0%nat) /\
  (slots > 0 ->
     forall (rewards : Z) (txs : list Tx),
     get_available_rewards (world st) staking_contract_address = Ok rewards ->
     rewards <> 0 ->
     get_stake_txs (world st) service_id service_registry_address
       staking_contract_address = Ok txs ->
     confirmed (world st) txs ->
     result o = Raise (SystemExit 0) /\
     final o = mkSt (world_after (world st) txs) (stdin st) /\
     log o =
       [EQuery (QAvailableStakingSlots staking_contract_address);
        EPrint (MCheckingRewards service_id program);
        EQuery (QAvailableRewards staking_contract_address);
        EPrint (MRewardsAvailable rewards service_id);
        EBuildStake service_id service_registry_address staking_contract_address]
       ++ map ESend txs ++ [EPrint (MStaked service_id program)] /\
     sent (log o) = txs /\ stake_batches (log o) = 1%nat /\
     unstake_batches (log o) = 0%nat).
Proof.
  intros Hslots o. subst o. destruct st as [w i]. cbn [world stdin] in *.
  split; [|split].
  - intros Hle.
    one_path (_try_stake_service service_id service_registry_address
                staking_contract_address program (mkSt w i)).
    repeat split.
  - intros Hgt Hrw.
    one_path (_try_stake_service service_id service_registry_address
                staking_contract_address program (mkSt w i)).
    repeat split.
  - intros Hgt rewards txs Hrw Hne Htxs Hconf. pose proof Hconf as Hc.
    unfold confirmed in Hc.
    one_path (_try_stake_service service_id service_registry_address
                staking_contract_address program (mkSt w i)).
    rewrite ?(submitted_confirmed _ _ Hconf). simpl_log.
    repeat split.
Qed.

(** The stake attempt never returns to its caller: every path ends in
    [sys.exit] or in an exception. *)
Lemma try_stake_service_raises
    (sid : Z) (reg addr : address) (program : string) (st : St W) :
  exists e, result (_try_stake_service sid reg addr program st) = Raise e.
Proof.
  destruct st as [w i].
  all_paths (_try_stake_service sid reg addr program (mkSt w i));
    eexists; reflexivity.
Qed.

(** *** The decision engine, no unstake requested *)

(** C4: when the service is staked and not evicted and no unstake was
    requested, the engine ends with status 0; it builds and sends exactly
    one unstake batch when the rewards are zero, leaving the world the
    batch makes, and builds and sends nothing otherwise, leaving the world
    as it was.  The operator's input is not touched. *)
Theorem staked_not_evicted_unstakes_iff_no_rewards
    (args : Args) (st : St W) (s : StakingContractState) :
  snapshot (world st) args.(service_id) args.(staking_contract_address) s ->
  isStaked s = true -> isEvicted s = false -> unstake args = false ->
  let o := decision_engine args st in
  (availableRewards s = 0 ->
     forall txs : list Tx,
     get_unstake_txs (world st) args.(service_id) args.(staking_contract_address)
       = Ok txs ->
     confirmed (world st) txs ->
     result o = Raise (SystemExit 0) /\
     final o = mkSt (world_after (world st) txs) (stdin st) /\
     unstake_batches (log o) = 1%nat /\ stake_batches (log o) = 0%nat /\
     sent (log o) = txs) /\
  (availableRewards s <> 0 ->
     result o = Raise (SystemExit 0) /\
     final o = st /\
     unstake_batches (log o) = 0%nat /\ stake_batches (log o) = 0%nat /\
     sent (log o) = []).
Proof.
  intros Hs Hst Hev Hu o. subst o.
  destruct args as [sid reg addr key rpc u pw], st as [w i], s; simpl_records.
  subst. open_snapshot Hs. split.
  - intros -> txs Htxs Hconf. pose proof Hconf as Hc. unfold confirmed in Hc.
    engine_path.
    rewrite ?(submitted_confirmed _ _ Hconf). simpl_log.
    repeat split.
  - intros Hne.
    engine_path.
    repeat split.
Qed.

(** C1, as the code has it: when the service is staked and evicted and no
    unstake was requested, the engine first evaluates the duration lock.
    Under the lock it ends with status 1 and builds no unstake transaction.
    Otherwise, whatever the rewards are, it builds and sends one unstake
    batch and then runs the stake attempt on the world the batch left. *)
Theorem evicted_unstakes_unless_locked
    (args : Args) (st : St W) (s : StakingContractState) :
  snapshot (world st) args.(service_id) args.(staking_contract_address) s ->
  isStaked s = true -> isEvicted s = true -> unstake args = false ->
  let o := decision_engine args st in
  (duration_locked (time_time (world st)) s ->
     result o = Raise (SystemExit 1) /\ final o = st /\
     unstake_batches (log o) = 0%nat /\ sent (log o) = []) /\
  (~ duration_locked (time_time (world st)) s ->
     forall txs : list Tx,
     get_unstake_txs (world st) args.(service_id) args.(staking_contract_address)
       = Ok txs ->
     confirmed (world st) txs ->
     let o' := _try_stake_service args.(service_id) args.(service_registry_address)
                 args.(staking_contract_address) staking_program
                 (mkSt (world_after (world st) txs) (stdin st)) in
     result o = result o' /\ final o = final o' /\
     exists pre, log o = pre ++ log o' /\
       unstake_batches pre = 1%nat /\ stake_batches pre = 0%nat /\ sent pre = txs).
Proof.
  intros Hs Hst Hev Hu o. subst o.
  destruct args as [sid reg addr key rpc u pw], st as [w i], s; simpl_records.
  subst. open_snapshot Hs. split.
  - intros Hl. apply duration_locked_true in Hl. cbn in Hl.
    engine_path.
    repeat split.
  - intros Hl txs Htxs Hconf. apply duration_locked_false in Hl. cbn in Hl.
    pose proof Hconf as Hc. unfold confirmed in Hc.
    destruct (try_stake_service_raises sid reg addr staking_program
                (mkSt (world_after w txs) i)) as [e He].
    follow_path ltac:(idtac; unfold_engine)
      (decision_engine (mkArgs sid reg addr key rpc false pw) (mkSt w i)).
    rewrite ?(submitted_confirmed _ _ Hconf).
    destruct (_try_stake_service sid reg addr staking_program
                (mkSt (world_after w txs) i)) as [[r st2] t].
    cbn in He. subst r. cbn. repeat split.
    exists ([EQuery (QNextCheckpointTs addr); EQuery (QLivenessPeriod addr); ETime;
             EQuery (QAvailableRewards addr); EQuery (QIsServiceStaked sid addr);
             EQuery (QIsServiceEvicted sid addr);
             EPrint (MEvictedUnstaking sid staking_program); ETime;
             EQuery (QServiceInfo sid addr); EQuery (QMinStakingDuration addr);
             EQuery (QAvailableRewards addr); EBuildUnstake sid addr]
            ++ map ESend txs ++ [EPrint (MUnstaked sid staking_program)]).
    split; [|simpl_log; repeat split].
    cbn. rewrite <- app_assoc. reflexivity.
Qed.

(** *** The duration lock *)

(** C2: under the duration lock (the service has been staked for less than
    the minimum duration and rewards remain), the explicit unstake path and
    the eviction-triggered path both end the run, not with status 0, before
    an unstake transaction is built or any transaction is sent. *)
Theorem duration_lock_blocks_unstake
    (args : Args) (st : St W) (s : StakingContractState) :
  snapshot (world st) args.(service_id) args.(staking_contract_address) s ->
  isStaked s = true ->
  duration_locked (time_time (world st)) s ->
  unstake args = true \/ isEvicted s = true ->
  let o := decision_engine args st in
  (exists e, result o = Raise e /\ e <> SystemExit 0) /\
  (unstake args = false \/ isEvicted s = false -> result o = Raise (SystemExit 1)) /\
  unstake_batches (log o) = 0%nat /\ sent (log o) = [].
Proof.
  intros Hs Hst Hl Hpath o. subst o.
  destruct args as [sid reg addr key rpc u pw], st as [w i], s; simpl_records.
  subst. open_snapshot Hs. apply duration_locked_true in Hl. cbn in Hl.
  assert (Hclose : forall (r : Res unit) (P : Prop) (a : nat) (b : list Tx),
             (exists e, r = Raise e /\ e <> SystemExit 0) ->
             (P -> r = Raise (SystemExit 1)) -> a = 0%nat -> b = [] ->
             (exists e, r = Raise e /\ e <> SystemExit 0) /\
             (P -> r = Raise (SystemExit 1)) /\ a = 0%nat /\ b = [])
    by (intros; repeat split; assumption).
  destruct u, isEvicted0; try (destruct Hpath; discriminate).
  - destruct i as [|[l|] rest];
      engine_path;
      apply Hclose;
      first [reflexivity | intros [?|?]; discriminate
            | eexists; split; [reflexivity|discriminate]].
  - engine_path;
      apply Hclose;
      first [reflexivity | intros _; reflexivity
            | eexists; split; [reflexivity|discriminate]].
  - engine_path;
      apply Hclose;
      first [reflexivity | intros _; reflexivity
            | eexists; split; [reflexivity|discriminate]].
Qed.

(** *** The checkpoint confirmation *)

(** C6: on the explicit unstake path, once the duration check has passed
    and the current time is before the next checkpoint, the engine prints
    the checkpoint warning and asks the operator to confirm; on an answer
    that is not "yes" or "y" (in any letter case) it ends with status 1, and
    no unstake transaction is built and no transaction is sent. *)
Theorem checkpoint_refusal_terminates
    (args : Args) (st : St W) (s : StakingContractState)
    (ack answer last_ts next_ts : string) (rest : list Key) :
  snapshot (world st) args.(service_id) args.(staking_contract_address) s ->
  unstake args = true -> isStaked s = true ->
  ~ duration_locked (time_time (world st)) s ->
  time_time (world st) < nextCheckpointTimestamp s ->
  utcfromtimestamp (nextCheckpointTimestamp s - livenessPeriod s) = Ok last_ts ->
  utcfromtimestamp (nextCheckpointTimestamp s) = Ok next_ts ->
  stdin st = (if isEvicted s then [Line ack] else []) ++ Line answer :: rest ->
  affirmative answer = false ->
  let o := decision_engine args st in
  result o = Raise (SystemExit 1) /\
  (exists pre,
     log o = pre ++ [EPrint (MCheckpointWarning (livenessPeriod s) last_ts next_ts);
                     EInput (ContinueUnstaking args.(service_id) staking_program);
                     EPrint MBlank; EPrint MTerminating]) /\
  unstake_batches (log o) = 0%nat /\ sent (log o) = [].
Proof.
  intros Hs Hu Hst Hl Hnow Hlast Hnext Hin Hans o. subst o.
  destruct args as [sid reg addr key rpc u pw], st as [w i], s; simpl_records.
  subst. open_snapshot Hs. apply duration_locked_false in Hl. cbn in Hl.
  unfold affirmative in Hans.
  destruct isEvicted0; cbn [app];
    engine_path.
  - repeat split. eexists (_ :: _ :: _ :: _ :: _ :: _ :: _ :: _ :: _ :: _ :: _ :: _ :: []).
    reflexivity.
  - repeat split. eexists (_ :: _ :: _ :: _ :: _ :: _ :: _ :: _ :: _ :: _ :: []).
    reflexivity.
Qed.

(** *** Reads on both sides of a transaction *)

(** C3, as the code has it: the engine reads the chain where it uses a
    value, not from one snapshot.  A field is read, a transaction is sent
    and the field is read again only for [availableRewards], and only on the
    eviction-triggered path (no unstake requested, service staked and
    evicted), where the stake attempt reads it after the unstake batch. *)
Theorem reread_after_action_only_rewards_when_evicted
    (args : Args) (st : St W) (f : Field) :
  read_acted_reread f (log (decision_engine args st)) = true ->
  f = FAvailableRewards /\
  unstake args = false /\
  is_service_staked (world st) args.(service_id) args.(staking_contract_address)
    = Ok true /\
  is_service_evicted (world st) args.(service_id) args.(staking_contract_address)
    = Ok true.
Proof.
  destruct args as [sid reg addr key rpc u pw], st as [w i].
  cbn [unstake service_id staking_contract_address world].
  all_paths (decision_engine (mkArgs sid reg addr key rpc u pw) (mkSt w i)).
  all: unfold read_acted_reread, log; cbn [snd].
  all: destruct f; cbn;
    rewrite ?read_acted_reread_sends, ?read_acted_reread_only_sends; cbn.
  all: try (intros; discriminate).
  all: repeat match goal with
         | |- context [after_sends _ ?l] => destruct l; cbn
         end;
    rewrite ?read_acted_reread_sends, ?read_acted_reread_only_sends; cbn.
  all: try (intros; discriminate).
  all: repeat match goal with
         | |- context [after_sends _ ?l] => destruct l; cbn
         end;
    rewrite ?read_acted_reread_sends, ?read_acted_reread_only_sends; cbn.
  all: try (intros; discriminate).
  all: intros _; repeat split; congruence.
Qed.

(** *** The command line *)

(** The explicit unstake branch never falls through to the rest of [main]. *)
Lemma explicit_unstake_raises
    (args : Args) (next_ts liveness_period last_ts now : Z) :
  never_returns (explicit_unstake args next_ts liveness_period last_ts now).
Proof.
  intros [w i].
  destruct args as [sid reg addr key rpc u pw].
  all_paths (explicit_unstake (mkArgs sid reg addr key rpc u pw)
               next_ts liveness_period last_ts now (mkSt w i));
    eexists; reflexivity.
Qed.

Local Arguments explicit_unstake : simpl never.

(** C9: [args.unstake] is [bool] of the string given for the positional
    [unstake], so it is false for the empty string only; for every other
    string, ["False"] and ["0"] included, the engine takes the explicit
    unstake branch after its four collection reads and ends there. *)
Theorem unstake_argument_is_truthiness (argv : Argv) :
  (unstake (parse_args argv) = false <-> argv_unstake argv = "") /\
  (argv_unstake argv <> "" ->
   forall (st : St W) (next_ts liveness_period rewards : Z),
   let args := parse_args argv in
   get_next_checkpoint_ts (world st) args.(staking_contract_address) = Ok next_ts ->
   get_liveness_period (world st) args.(staking_contract_address)
     = Ok liveness_period ->
   get_available_rewards (world st) args.(staking_contract_address) = Ok rewards ->
   let o := decision_engine args st in
   let o' := explicit_unstake args next_ts liveness_period
               (next_ts - liveness_period) (time_time (world st)) st in
   result o = result o' /\ final o = final o' /\
   log o = [EQuery (QNextCheckpointTs args.(staking_contract_address));
            EQuery (QLivenessPeriod args.(staking_contract_address));
            ETime;
            EQuery (QAvailableRewards args.(staking_contract_address))] ++ log o').
Proof.
  destruct argv as [sid reg addr key rpc u pw]. cbn [argv_unstake].
  split.
  - unfold parse_args; cbn. destruct u; cbn; split; congruence.
  - intros Hne st next_ts liveness_period rewards Hn Hl Hr.
    destruct u as [|c u]; [congruence|].
    unfold parse_args in *; cbn [argv_service_id argv_service_registry_address
      argv_staking_contract_address argv_owner_private_key_path argv_rpc
      argv_unstake argv_password bool_of_str] in *.
    simpl_records.
    pose proof (explicit_unstake_raises (mkArgs sid reg addr key rpc true pw)
                  next_ts liveness_period (next_ts - liveness_period)
                  (time_time (world st)) st) as [e He].
    unfold decision_engine, query, call, when, bind, result, final, log in *.
    cbn. rewrite Hn, Hl, Hr. cbn.
    destruct (explicit_unstake (mkArgs sid reg addr key rpc true pw)
                next_ts liveness_period (next_ts - liveness_period)
                (time_time (world st)) st) as [[r st'] t].
    cbn in He. subst r. cbn. repeat split.
Qed.

(** *** The legacy sweep *)

(** Every path, with the hypotheses deciding a step where they can. *)
Ltac some_paths o :=
  let P := fresh "P" in
  let HP := fresh "HP" in
  pattern o;
  match goal with |- ?Q _ => remember Q as P eqn:HP end;
  unfold_script; cbn; repeat (first [path_step | exec_step]); subst P; cbn beta;
  unfold result, final, log; cbn [fst snd].

(** C10: the availability check of the sweep is made for the programs
    queried with [is_service_staked] (Alpine, CoastalTest) and not for
    Everest.  When the service is a member of Everest and the operator
    confirms, the script sends the unstake batch after reading nothing but
    the membership list, and returns in the world the batch makes: neither
    the clock, nor the service info, the minimum duration or the rewards
    are read, whatever they are.  For Alpine and CoastalTest the check is
    evaluated as soon as the service is found staked, and under the
    duration lock the run ends with status 0, nothing sent and the world
    as it was. *)
Theorem availability_check_skipped_for_everest
    (sid : Z) (addr : address) (st : St W) :
  (forall (ids : list Z) (answer : string) (rest : list Key) (txs : list Tx),
     get_service_ids (world st) addr = Ok ids -> int_in sid ids = true ->
     stdin st = Line answer :: rest -> affirmative answer = true ->
     get_unstake_txs (world st) sid addr = Ok txs -> confirmed (world st) txs ->
     let o := _unstake_old_program sid addr "Everest" st in
     result o = Ok tt /\
     final o = mkSt (world_after (world st) txs) rest /\
     log o =
       [EPrint (MCheckingOld "Everest"); EQuery (QServiceIds addr);
        EPrint (MStakedOld sid "Everest");
        EInput (ContinueUnstaking sid "Everest"); EPrint MBlank;
        EPrint (MUnstaking sid "Everest"); EBuildUnstake sid addr]
       ++ map ESend txs ++ [EPrint (MUnstaked sid "Everest")] /\
     fields_read (log o) = [FServiceIds] /\ sent (log o) = txs) /\
  (forall (program : string) (s : StakingContractState),
     program = "Alpine" \/ program = "CoastalTest" ->
     snapshot (world st) sid addr s -> isStaked s = true ->
     let o := _unstake_old_program sid addr program st in
     (exists rest,
        log o =
          [EPrint (MCheckingOld program); EQuery (QIsServiceStaked sid addr);
           ETime; EQuery (QServiceInfo sid addr);
           EQuery (QMinStakingDuration addr); EQuery (QAvailableRewards addr)]
          ++ rest) /\
     (duration_locked (time_time (world st)) s ->
      forall (ack : string) (rest : list Key), stdin st = Line ack :: rest ->
      result o = Raise (SystemExit 0) /\
      final o = mkSt (world st) rest /\
      unstake_batches (log o) = 0%nat /\ sent (log o) = [])).
Proof.
  destruct st as [w i]. simpl_records. split.
  - intros ids answer rest txs Hids Hin Hi Hans Htxs Hconf. subst i.
    pose proof Hconf as Hc. unfold confirmed in Hc. unfold affirmative in Hans.
    one_path (_unstake_old_program sid addr "Everest" (mkSt w (Line answer :: rest))).
    rewrite ?(submitted_confirmed _ _ Hconf). simpl_log. repeat split.
  - intros program s Hp Hs Hst. destruct s. simpl_records. subst.
    open_snapshot Hs. split.
    + destruct Hp; subst program;
        match goal with
        | |- context [_unstake_old_program ?a ?b ?c ?d] =>
            some_paths (_unstake_old_program a b c d)
        end; eexists; cbn; reflexivity.
    + intros Hl ack rest Hi. subst i. apply duration_locked_true in Hl.
      simpl_records.
      destruct Hp; subst program;
        match goal with
        | |- context [_unstake_old_program ?a ?b ?c ?d] =>
            one_path (_unstake_old_program a b c d)
        end; repeat split.
Qed.

Lemma programs_checked_sends (l : list Tx) (rest : list (Event Tx)) :
  programs_checked (map ESend l ++ rest) = programs_checked rest.
Proof. induction l; cbn; congruence. Qed.

Lemma programs_checked_only_sends (l : list Tx) :
  programs_checked (map ESend l) = [].
Proof. induction l; cbn; congruence. Qed.

(** On every path, one step of the sweep announces its program, once. *)
Lemma unstake_old_program_checks
    (sid : Z) (addr : address) (program : string) (st : St W) :
  programs_checked (log (_unstake_old_program sid addr program st)) = [program].
Proof.
  destruct st as [w i].
  all_paths (_unstake_old_program sid addr program (mkSt w i));
    cbn; rewrite ?programs_checked_sends, ?programs_checked_only_sends;
    reflexivity.
Qed.

Local Arguments _unstake_old_program : simpl never.

Lemma programs_checked_app (a b : list (Event Tx)) :
  programs_checked (a ++ b) = programs_checked a ++ programs_checked b.
Proof.
  induction a as [|e a IH]; [reflexivity|].
  destruct e as [| | | | | |m| | | |]; cbn; try exact IH.
  destruct m; cbn; congruence.
Qed.

(** A sweep that returns has gone through the whole table, in order. *)
Lemma sweep_checks_every_program (args : Args) (st : St W) (u : unit) :
  result (startup_and_sweep args st) = Ok u ->
  programs_checked (log (startup_and_sweep args st)) = map fst OLD_STAKING_PROGRAMS.
Proof.
  destruct st as [w i].
  unfold startup_and_sweep, _unstake_all_old_programs, OLD_STAKING_PROGRAMS,
    for_each, call, print, emit, ret, bind, result, log.
  cbn.
  destruct (EthereumApi w (rpc args)); [|discriminate]. cbn.
  destruct (EthereumCrypto w (owner_private_key_path args) (password args));
    [|discriminate]. cbn.
  repeat match goal with
  | |- context [_unstake_old_program ?a ?b ?c ?d] =>
      let H := fresh "H" in
      pose proof (unstake_old_program_checks a b c d) as H;
      destruct (_unstake_old_program a b c d) as [[[?|?] ?] ?];
      cbn in H |- *; [|discriminate]
  end.
  intros _. rewrite !programs_checked_app. cbn. unfold log in *. cbn in *.
  repeat match goal with H : programs_checked _ = _ |- _ => rewrite H; clear H end.
  reflexivity.
Qed.

Local Arguments decision_engine : simpl never.
Local Arguments startup_and_sweep : simpl never.

(** C7: the body of [main] is the start-up and the legacy sweep followed by
    the decision engine.  When the sweep returns it has gone through every
    entry of the table, and the engine starts from the state the sweep left:
    every event of the engine comes after every event of the sweep.  When
    the sweep ends the run, the run ends there and nothing of the engine is
    executed. *)
Theorem sweep_precedes_engine (argv : Argv) (st : St W) :
  let args := parse_args argv in
  let o1 := startup_and_sweep args st in
  let o := main_body argv st in
  match result o1 with
  | Ok _ =>
      programs_checked (log o1) = map fst OLD_STAKING_PROGRAMS /\
      let o2 := decision_engine args (final o1) in
      result o = result o2 /\ final o = final o2 /\ log o = log o1 ++ log o2
  | Raise e =>
      result o = Raise e /\ final o = final o1 /\ log o = log o1
  end.
Proof.
  intros args o1 o. subst o o1.
  pose proof (sweep_checks_every_program args st) as Hall.
  unfold main_body, bind, result, final, log in *. fold args.
  destruct (startup_and_sweep args st) as [[[u|e] st1] t1]; cbn in *.
  - split; [apply (Hall u); reflexivity|].
    destruct (decision_engine args st1) as [[r st2] t2]. cbn. repeat split.
  - repeat split.
Qed.

(** *** The top-level handler *)

Section Emits.
Variable P : Event Tx -> bool.

Lemma emits_ret {A} (a : A) : emits_only P (@ret W Tx A a).
Proof. intros st. reflexivity. Qed.

Lemma emits_raise {A} (e : Exn) : emits_only P (@raise W Tx A e).
Proof. intros st. reflexivity. Qed.

Lemma emits_lift {A} (r : Res A) : emits_only P (@lift W Tx A r).
Proof. intros st. reflexivity. Qed.

Lemma emits_index {A} (l : list A) (n : nat) : emits_only P (@index W Tx A l n).
Proof. intros st. unfold index. destruct (nth_error l n); reflexivity. Qed.

Lemma emits_emit (e : Event Tx) : P e = true -> emits_only P (@emit W Tx e).
Proof. intros H st. cbn. now rewrite H. Qed.

Lemma emits_call {A} (e : Event Tx) (f : W -> Res A) :
  P e = true -> emits_only P (call e f).
Proof. intros H st. cbn. now rewrite H. Qed.

Lemma emits_input (p : Prompt) :
  P (EInput p) = true -> emits_only P (@input W Tx p).
Proof.
  intros H st. unfold input, log. destruct (stdin st) as [|[l|] rest]; cbn;
    now rewrite H.
Qed.

Lemma emits_send (tx : Tx) : P (ESend tx) = true -> emits_only P (send tx).
Proof.
  intros H st. unfold send, log.
  destruct (send_tx_and_wait_for_receipt (world st) tx). cbn. now rewrite H.
Qed.

Lemma emits_bind {A B} (m : M W Tx A) (f : A -> M W Tx B) :
  emits_only P m -> (forall a, emits_only P (f a)) -> emits_only P (bind m f).
Proof.
  intros Hm Hf st. specialize (Hm st). unfold bind, log in *.
  destruct (m st) as [[[a|e] st1] t1]; cbn in *; [|assumption].
  specialize (Hf a st1). unfold log in Hf.
  destruct (f a st1) as [[r st2] t2]. cbn in *.
  rewrite forallb_app, Hm, Hf. reflexivity.
Qed.

Lemma emits_for_each {A} (l : list A) (body : A -> M W Tx unit) :
  (forall x, emits_only P (body x)) -> emits_only P (for_each l body).
Proof.
  intros H. induction l as [|x l IH]; cbn.
  - apply emits_ret.
  - apply emits_bind; [apply H|intros _; exact IH].
Qed.

End Emits.

Ltac emits :=
  repeat first
    [ apply emits_ret | apply emits_raise | apply emits_lift | apply emits_index
    | apply emits_emit; reflexivity
    | apply emits_call; reflexivity
    | apply emits_input; reflexivity
    | apply emits_send; reflexivity
    | apply emits_bind; [|intros]
    | apply emits_for_each; intros
    | match goal with
      | |- emits_only _ (if ?b then _ else _) => destruct b
      | |- emits_only _ (let (_, _) := ?x in _) => destruct x
      end
    | progress unfold print, query, sys_exit, when ].

(** No path of the body of [main] logs an event of the [except] block. *)
Lemma main_body_emits_no_handler_event (argv : Argv) :
  emits_only (fun e => negb (is_handler_event e)) (main_body argv).
Proof.
  unfold main_body, startup_and_sweep, _unstake_all_old_programs, decision_engine,
    explicit_unstake, evicted_unstake, _unstake_old_program, confirm_and_unstake_old,
    _try_stake_service, _check_unstaking_availability.
  emits.
Qed.

Lemma no_handler_events (tr : list (Event Tx)) :
  forallb (fun e => negb (is_handler_event e)) tr = true -> handler_events tr = [].
Proof.
  induction tr as [|e tr IH]; [reflexivity|]. cbn.
  destruct (is_handler_event e); [discriminate|]. exact IH.
Qed.

Local Arguments main_body : simpl never.

(** C8: when the body of [main] raises an exception that derives from
    [Exception], the handler runs, once: it prints the error, prints the
    traceback, unsets [USE_STAKING] in the environment file, prints the
    advice to confirm the staking state and retry, and exits with status 1.
    These four events end the log and occur nowhere else in it. *)
Theorem handler_catches_exception_once (argv : Argv) (st : St W) (what : string) :
  result (main_body argv st) = Raise (Exception what) ->
  let o := main argv st in
  let handled :=
    [EPrint (MErrorOccurred what); ETraceback;
     EUnsetKey "../.trader_runner/.env" "USE_STAKING"; EPrint MConfirmAndRetry] in
  result o = Raise (SystemExit 1) /\
  final o = final (main_body argv st) /\
  log o = log (main_body argv st) ++ handled /\
  handler_events (log o) = handled.
Proof.
  intros H.
  pose proof (no_handler_events _ (main_body_emits_no_handler_event argv st)) as Hb.
  unfold main, try_except, result, final, log, handler_events in *.
  destruct (main_body argv st) as [[r st1] t1]. cbn in *. subst r. cbn.
  repeat split. rewrite filter_app, Hb. reflexivity.
Qed.

(** [sys.exit] and an interrupt are not caught: the run of [main] is the
    run of its body, and no event of the [except] block is logged. *)
Lemma handler_passes_termination (argv : Argv) (st : St W) :
  (forall what, result (main_body argv st) <> Raise (Exception what)) ->
  main argv st = main_body argv st /\ handler_events (log (main argv st)) = [].
Proof.
  intros H.
  pose proof (no_handler_events _ (main_body_emits_no_handler_event argv st)) as Hb.
  unfold main, try_except, result, log, handler_events in *.
  destruct (main_body argv st) as [[[u|[c| |what]] st1] t1]; cbn in *;
    try (split; [reflexivity|exact Hb]).
  now destruct (H what).
Qed.

(** *** Further properties of the script *)

(** Every path of the decision engine ends in [sys.exit] or an exception. *)
Lemma decision_engine_never_returns (args : Args) : never_returns (decision_engine args).
Proof.
  intros [w i]. destruct args as [sid reg addr key rpc u pw].
  all_paths (decision_engine (mkArgs sid reg addr key rpc u pw) (mkSt w i));
    eexists; reflexivity.
Qed.

(** X1: [main] never returns to its caller and lets no exception deriving
    from [Exception] escape: every run ends with [SystemExit] or with
    [KeyboardInterrupt]. *)
Theorem main_always_exits (argv : Argv) (st : St W) :
  exists e, result (main argv st) = Raise e /\ is_Exception e = false.
Proof.
  unfold main, try_except, main_body, bind, handler, print, emit, sys_exit, raise,
    result.
  destruct (startup_and_sweep (parse_args argv) st) as [[[u|e] st1] t1].
  - destruct (decision_engine_never_returns (parse_args argv) st1) as [e He].
    unfold result in He.
    destruct (decision_engine (parse_args argv) st1) as [[r st2] t2].
    cbn in He. subst r. destruct e; cbn; eexists; split; reflexivity.
  - destruct e; cbn; eexists; split; reflexivity.
Qed.

(** X2: when an unstake is requested and the service is not staked, the
    engine ends with status 0 after its collection reads and the staked
    query: it does not ask whether the service is evicted, does not
    evaluate the duration lock, prompts for nothing and sends nothing. *)
Theorem unstake_requested_when_not_staked
    (args : Args) (st : St W) (next_ts liveness_period rewards : Z) :
  unstake args = true ->
  get_next_checkpoint_ts (world st) args.(staking_contract_address) = Ok next_ts ->
  get_liveness_period (world st) args.(staking_contract_address)
    = Ok liveness_period ->
  get_available_rewards (world st) args.(staking_contract_address) = Ok rewards ->
  is_service_staked (world st) args.(service_id) args.(staking_contract_address)
    = Ok false ->
  decision_engine args st =
  (Raise (SystemExit 0), st,
   [EQuery (QNextCheckpointTs args.(staking_contract_address));
    EQuery (QLivenessPeriod args.(staking_contract_address));
    ETime;
    EQuery (QAvailableRewards args.(staking_contract_address));
    EQuery (QIsServiceStaked args.(service_id) args.(staking_contract_address));
    EPrint (MNotStaked args.(service_id) staking_program)]).
Proof.
  intros Hu Hn Hl Hr Hs.
  destruct args as [sid reg addr key rpc u pw], st as [w i]. simpl_records. subst u.
  engine_path. reflexivity.
Qed.

(** X3: the explicit unstake goes through when the service is staked and
    the duration lock does not apply: after the operator has acknowledged
    the eviction warning (if the service is evicted) and confirmed the
    checkpoint warning (if the next checkpoint is still ahead), the engine
    builds one unstake batch, sends it, and ends with status 0.  It reads
    exactly the lines these two prompts ask for, and it never stakes. *)
Theorem explicit_unstake_submits
    (args : Args) (st : St W) (s : StakingContractState)
    (ack answer last_ts next_ts : string) (rest : list Key) (txs : list Tx) :
  snapshot (world st) args.(service_id) args.(staking_contract_address) s ->
  unstake args = true -> isStaked s = true ->
  ~ duration_locked (time_time (world st)) s ->
  stdin st =
    (if isEvicted s then [Line ack] else []) ++
    (if time_time (world st) <? nextCheckpointTimestamp s then [Line answer] else [])
    ++ rest ->
  (time_time (world st) < nextCheckpointTimestamp s ->
     affirmative answer = true /\
     utcfromtimestamp (nextCheckpointTimestamp s - livenessPeriod s) = Ok last_ts /\
     utcfromtimestamp (nextCheckpointTimestamp s) = Ok next_ts) ->
  get_unstake_txs (world st) args.(service_id) args.(staking_contract_address)
    = Ok txs ->
  confirmed (world st) txs ->
  let o := decision_engine args st in
  result o = Raise (SystemExit 0) /\
  final o = mkSt (world_after (world st) txs) rest /\
  unstake_batches (log o) = 1%nat /\ stake_batches (log o) = 0%nat /\
  sent (log o) = txs.
Proof.
  intros Hs Hu Hst Hl Hin Hans Htxs Hconf o. subst o.
  destruct args as [sid reg addr key rpc u pw], st as [w i], s; simpl_records.
  subst. open_snapshot Hs. apply duration_locked_false in Hl. simpl_records.
  pose proof Hconf as Hc. unfold confirmed in Hc. unfold affirmative in Hans.
  destruct (time_time w <? nextCheckpointTimestamp0) eqn:Hnow.
  - apply Z.ltb_lt in Hnow. destruct (Hans Hnow) as (Ha & Hlast & Hnext).
    apply Z.ltb_lt in Hnow.
    destruct isEvicted0; cbn [app]; engine_path;
      rewrite ?(submitted_confirmed _ _ Hconf); simpl_log; repeat split.
  - destruct isEvicted0; cbn [app]; engine_path;
      rewrite ?(submitted_confirmed _ _ Hconf); simpl_log; repeat split.
Qed.

(** X4: when no unstake is requested and the service is not staked, the
    engine is its five reads followed by the stake attempt. *)
Theorem not_staked_runs_stake_attempt
    (args : Args) (st : St W) (next_ts liveness_period rewards : Z) :
  unstake args = false ->
  get_next_checkpoint_ts (world st) args.(staking_contract_address) = Ok next_ts ->
  get_liveness_period (world st) args.(staking_contract_address)
    = Ok liveness_period ->
  get_available_rewards (world st) args.(staking_contract_address) = Ok rewards ->
  is_service_staked (world st) args.(service_id) args.(staking_contract_address)
    = Ok false ->
  let o := decision_engine args st in
  let o' := _try_stake_service args.(service_id) args.(service_registry_address)
              args.(staking_contract_address) staking_program st in
  result o = result o' /\ final o = final o' /\
  log o =
    [EQuery (QNextCheckpointTs args.(staking_contract_address));
     EQuery (QLivenessPeriod args.(staking_contract_address));
     ETime;
     EQuery (QAvailableRewards args.(staking_contract_address));
     EQuery (QIsServiceStaked args.(service_id) args.(staking_contract_address))]
    ++ log o'.
Proof.
  intros Hu Hn Hl Hr Hs o o'. subst o o'.
  destruct args as [sid reg addr key rpc u pw], st as [w i]. simpl_records. subst u.
  follow_path ltac:(idtac; unfold_engine)
    (decision_engine (mkArgs sid reg addr key rpc false pw) (mkSt w i)).
  destruct (_try_stake_service sid reg addr staking_program (mkSt w i)) as [[r st2] t].
  cbn. repeat split.
Qed.

(** X5: a batch is sent in order and stops at the first transaction whose
    submission raises: the transactions sent are a prefix of the batch, the
    whole batch exactly when the loop returns, and when it raises the last
    one sent is the one that failed, after all the earlier ones were
    confirmed; no later transaction is sent. *)
Theorem batch_stops_at_first_failure (txs : list Tx) (st : St W) :
  let o := for_each txs send st in
  log o = map ESend (sent (log o)) /\
  (forall u, result o = Ok u -> sent (log o) = txs /\ confirmed (world st) txs) /\
  (forall e, result o = Raise e ->
     exists before tx after,
       txs = before ++ tx :: after /\
       sent (log o) = before ++ [tx] /\
       confirmed (world st) before /\
       fst (send_tx_and_wait_for_receipt (world_after (world st) before) tx)
         = Raise e).
Proof.
  cbn zeta. rewrite for_each_send. unfold result, log. cbn [fst snd].
  rewrite <- (app_nil_r (map ESend _)), sent_sends. cbn [sent]. rewrite !app_nil_r.
  split; [reflexivity|].
  unfold confirmed, submit_result, submitted, world_after. destruct st as [w i].
  cbn [world]. clear i. revert w.
  induction txs as [|tx txs IH]; intros w; cbn.
  - split; [intros; split; reflexivity|discriminate].
  - destruct (send_tx_and_wait_for_receipt w tx) as [[[]|e0] w'] eqn:E; cbn.
    + specialize (IH w'). destruct (submit w' txs) as [[r w''] s] eqn:Es. cbn in *.
      destruct IH as [IHok IHraise]. split.
      * intros [] Hr. destruct (IHok tt Hr) as [-> _]. split; [reflexivity|exact Hr].
      * intros e Hr. destruct (IHraise e Hr) as (before & tx' & after & -> & -> & Hc & Hf).
        exists (tx :: before), tx', after. cbn. rewrite E. cbn.
        destruct (submit w' before) as [[rb wb] sb]. cbn in *.
        repeat split; assumption.
    + split; [discriminate|]. intros e [= <-].
      exists [], tx, txs. cbn. rewrite E. repeat split.
Qed.


Lemma build_unstake_only_sends (l : list Tx) :
  filter is_build_unstake (map ESend l) = [].
Proof. induction l; cbn; congruence. Qed.

Lemma build_stake_only_sends (l : list Tx) :
  filter is_build_stake (map ESend l) = [].
Proof. induction l; cbn; congruence. Qed.

Lemma prompts_sends (l : list Tx) (rest : list (Event Tx)) :
  prompts (map ESend l ++ rest) = prompts rest.
Proof. induction l; cbn; congruence. Qed.

Lemma prompts_only_sends (l : list Tx) : prompts (map ESend l) = [].
Proof. induction l; cbn; congruence. Qed.

Lemma targets_sends (args : Args) (l : list Tx) :
  Forall (targets args) (map ESend l).
Proof. induction l; cbn; constructor; cbn; auto. Qed.

(** X6: a service that is staked on none of the old programs passes the
    sweep untouched: one membership or staked query per program, no prompt,
    no transaction, and the state is left as it was. *)
Theorem sweep_leaves_unstaked_service_alone
    (service_id : Z) (st : St W) (ids : list Z) :
  get_service_ids (world st) Sim.everest = Ok ids ->
  int_in service_id ids = false ->
  is_service_staked (world st) service_id Sim.alpine = Ok false ->
  is_service_staked (world st) service_id Sim.coastal_test = Ok false ->
  _unstake_all_old_programs service_id st =
  (Ok tt, st,
   [EPrint MUnstakingOldPrograms;
    EPrint (MCheckingOld "Everest"); EQuery (QServiceIds Sim.everest);
    EPrint (MNotStakedOld service_id "Everest");
    EPrint (MCheckingOld "Alpine"); EQuery (QIsServiceStaked service_id Sim.alpine);
    EPrint (MNotStaked service_id "Alpine");
    EPrint (MCheckingOld "CoastalTest");
    EQuery (QIsServiceStaked service_id Sim.coastal_test);
    EPrint (MNotStaked service_id "CoastalTest")]).
Proof.
  intros He Hin Ha Hc. destruct st as [w i]. simpl_records.
  unfold Sim.everest, Sim.alpine, Sim.coastal_test in *.
  follow_path
    ltac:(idtac; unfold _unstake_all_old_programs, OLD_STAKING_PROGRAMS, for_each;
          unfold_script)
    (_unstake_all_old_programs service_id (mkSt w i)).
  reflexivity.
Qed.

(** X7: when the service is found staked on an old program (by the
    membership query for a program whose name starts with "Everest", by the
    staked query and an open duration lock for any other) and the operator
    does not answer "yes" or "y" to the confirmation, the run ends with
    status 1: one line of input was read, no unstake batch was built and
    nothing was sent. *)
Theorem old_program_refusal_ends_run
    (service_id : Z) (addr : address) (program : string) (st : St W)
    (answer : string) (rest : list Key) :
  stdin st = Line answer :: rest -> affirmative answer = false ->
  (String.prefix "Everest" program = true ->
   exists ids, get_service_ids (world st) addr = Ok ids /\
               int_in service_id ids = true) ->
  (String.prefix "Everest" program = false ->
   exists s, snapshot (world st) service_id addr s /\ isStaked s = true /\
             ~ duration_locked (time_time (world st)) s) ->
  let o := _unstake_old_program service_id addr program st in
  result o = Raise (SystemExit 1) /\ final o = mkSt (world st) rest /\
  prompts (log o) = [ContinueUnstaking service_id program] /\
  unstake_batches (log o) = 0%nat /\ sent (log o) = [].
Proof.
  intros Hin Hans Hev Hbool o. subst o. destruct st as [w i]. simpl_records. subst i.
  unfold affirmative in Hans.
  destruct (String.prefix "Everest" program) eqn:Hp.
  - destruct (Hev eq_refl) as (ids & Hids & Hmem).
    one_path (_unstake_old_program service_id addr program
                (mkSt w (Line answer :: rest))).
    repeat split.
  - destruct (Hbool eq_refl) as (s & Hs & Hst & Hl). destruct s. simpl_records. subst.
    open_snapshot Hs. apply duration_locked_false in Hl. simpl_records.
    one_path (_unstake_old_program service_id addr program
                (mkSt w (Line answer :: rest))).
    repeat split.
Qed.

Ltac unfold_main :=
  unfold main, try_except, main_body, startup_and_sweep, handler,
    _unstake_all_old_programs, OLD_STAKING_PROGRAMS, for_each, parse_args;
  cbn [argv_service_id argv_service_registry_address argv_staking_contract_address
       argv_owner_private_key_path argv_rpc argv_unstake argv_password
       service_id service_registry_address staking_contract_address
       owner_private_key_path rpc unstake password];
  unfold_script.

(** X8: when the sweep finds the service staked on Alpine under the
    duration lock, the whole run ends with status 0 once the operator
    presses Enter: CoastalTest is not checked, the target contract is never
    read, and nothing is sent. *)
Theorem sweep_lock_ends_run_with_status_0
    (argv : Argv) (st : St W) (ids : list Z) (s : StakingContractState)
    (ack : string) (rest : list Key) :
  EthereumApi (world st) (argv_rpc argv) = Ok tt ->
  EthereumCrypto (world st) (argv_owner_private_key_path argv) (argv_password argv)
    = Ok tt ->
  get_service_ids (world st) Sim.everest = Ok ids ->
  int_in (argv_service_id argv) ids = false ->
  snapshot (world st) (argv_service_id argv) Sim.alpine s ->
  isStaked s = true -> duration_locked (time_time (world st)) s ->
  stdin st = Line ack :: rest ->
  let o := main argv st in
  result o = Raise (SystemExit 0) /\ final o = mkSt (world st) rest /\
  programs_checked (log o) = ["Everest"; "Alpine"] /\
  fields_read (log o) =
    [FServiceIds; FIsStaked; FServiceInfo; FMinStakingDuration; FAvailableRewards] /\
  sent (log o) = [].
Proof.
  intros Hapi Hcrypto Hids Hmem Hs Hst Hl Hin o. subst o.
  destruct argv as [sid reg addr key rpc u pw], st as [w i], s. simpl_records.
  cbn [argv_service_id argv_rpc argv_owner_private_key_path argv_password] in *.
  subst. open_snapshot Hs. apply duration_locked_true in Hl. simpl_records.
  unfold Sim.everest, Sim.alpine in *.
  follow_path ltac:(idtac; unfold_main)
    (main (mkArgv sid reg addr key rpc u pw) (mkSt w (Line ack :: rest))).
  repeat split.
Qed.

(** X9: run without an operator (end of file on standard input) while the
    service is a member of Everest, the confirmation prompt raises
    [EOFError]; the handler of [main] prints it, unsets [USE_STAKING] and
    exits with status 1, and nothing is sent. *)
Theorem sweep_prompt_at_end_of_file
    (argv : Argv) (st : St W) (ids : list Z) :
  EthereumApi (world st) (argv_rpc argv) = Ok tt ->
  EthereumCrypto (world st) (argv_owner_private_key_path argv) (argv_password argv)
    = Ok tt ->
  get_service_ids (world st) Sim.everest = Ok ids ->
  int_in (argv_service_id argv) ids = true ->
  stdin st = [] ->
  let o := main argv st in
  result o = Raise (SystemExit 1) /\ final o = st /\
  handler_events (log o) =
    [EPrint (MErrorOccurred "EOFError"); ETraceback;
     EUnsetKey "../.trader_runner/.env" "USE_STAKING"; EPrint MConfirmAndRetry] /\
  programs_checked (log o) = ["Everest"] /\ sent (log o) = [].
Proof.
  intros Hapi Hcrypto Hids Hmem Hin o. subst o.
  destruct argv as [sid reg addr key rpc u pw], st as [w i]. simpl_records.
  cbn [argv_service_id argv_rpc argv_owner_private_key_path argv_password] in *.
  subst. unfold Sim.everest in *.
  follow_path ltac:(idtac; unfold_main)
    (main (mkArgv sid reg addr key rpc u pw) (mkSt w [])).
  repeat split.
Qed.

(** X10: [_format_duration] prints the days, hours and minutes of a
    duration rounded down to the minute: hours below 24, minutes below 60,
    and the seconds dropped.  For a negative duration the days are negative
    and the hours and minutes still count upwards from them. *)
Theorem format_duration_parts (d : Z) :
  let '(days, hours, minutes) := duration_parts d in
  _format_duration d =
    (str_of_int days ++ "D " ++ str_of_int hours ++ "h " ++ str_of_int minutes ++ "m")%string /\
  0 <= hours < 24 /\ 0 <= minutes < 60 /\
  86400 * days + 3600 * hours + 60 * minutes <= d
    < 86400 * days + 3600 * hours + 60 * minutes + 60 /\
  (0 <= d -> 0 <= days).
Proof.
  unfold duration_parts, _format_duration, divmod.
  split; [reflexivity|].
  pose proof (Z.div_mod d 86400 ltac:(lia)) as H1.
  pose proof (Z.mod_pos_bound d 86400 ltac:(lia)) as B1.
  pose proof (Z.div_mod (d mod 86400) 3600 ltac:(lia)) as H2.
  pose proof (Z.mod_pos_bound (d mod 86400) 3600 ltac:(lia)) as B2.
  pose proof (Z.div_mod ((d mod 86400) mod 3600) 60 ltac:(lia)) as H3.
  pose proof (Z.mod_pos_bound ((d mod 86400) mod 3600) 60 ltac:(lia)) as B3.
  pose proof (Z.div_pos d 86400) as P1.
  repeat split; try lia.
Qed.

(** X11: on every path the engine builds at most one unstake batch and at
    most one stake batch, and with the unstake flag set it never builds a
    stake batch. *)
Theorem at_most_one_batch_of_each_kind (args : Args) (st : St W) :
  let o := decision_engine args st in
  (unstake_batches (log o) <= 1)%nat /\ (stake_batches (log o) <= 1)%nat /\
  (unstake args = true -> stake_batches (log o) = 0%nat).
Proof.
  destruct args as [sid reg addr key rpc u pw], st as [w i]. cbn zeta. simpl_records.
  all_paths (decision_engine (mkArgs sid reg addr key rpc u pw) (mkSt w i)).
  all: unfold unstake_batches, stake_batches; cbn;
    rewrite ?build_unstake_sends, ?build_stake_sends, ?build_unstake_only_sends,
      ?build_stake_only_sends; cbn;
    rewrite ?build_unstake_sends, ?build_stake_sends, ?build_unstake_only_sends,
      ?build_stake_only_sends; cbn.
  all: repeat split; try lia; try reflexivity; try discriminate.
Qed.

(** X12: without the unstake flag the engine never prompts the operator,
    on any path, and leaves the pending input as it was. *)
Theorem engine_prompts_only_for_explicit_unstake (args : Args) (st : St W) :
  unstake args = false ->
  let o := decision_engine args st in
  prompts (log o) = [] /\ stdin (final o) = stdin st.
Proof.
  destruct args as [sid reg addr key rpc u pw], st as [w i]. cbn zeta. simpl_records.
  intros ->.
  all_paths (decision_engine (mkArgs sid reg addr key rpc false pw) (mkSt w i)).
  all: cbn; rewrite ?prompts_sends, ?prompts_only_sends; cbn;
    rewrite ?prompts_sends, ?prompts_only_sends; cbn; split; reflexivity.
Qed.

(** X13: on every path, every chain query of the engine and every batch it
    builds is for the staking contract, the service and the registry given
    on the command line. *)
Theorem engine_touches_only_target (args : Args) (st : St W) :
  Forall (targets args) (log (decision_engine args st)).
Proof.
  destruct args as [sid reg addr key rpc u pw], st as [w i].
  all_paths (decision_engine (mkArgs sid reg addr key rpc u pw) (mkSt w i)).
  all: repeat first
         [ apply Forall_nil
         | apply targets_sends
         | apply Forall_cons; [cbn; auto|]
         | apply Forall_app; split ].
Qed.


(** X14: the availability check answers [False] exactly under the
    duration lock: the service has been staked for less than the minimum
    duration and rewards remain.  With no rewards left it answers [True]
    however recently the service was staked.  It changes nothing and sends
    nothing. *)
Theorem check_unstaking_availability_spec
    (service_id : Z) (addr : address) (program : string) (st : St W)
    (ts_start min_duration rewards : Z) :
  service_ts_start (world st) service_id addr = Ok ts_start ->
  get_min_staking_duration (world st) addr = Ok min_duration ->
  get_available_rewards (world st) addr = Ok rewards ->
  let o := _check_unstaking_availability service_id addr program st in
  exists can_unstake,
    result o = Ok can_unstake /\
    (can_unstake = false <->
     time_time (world st) - ts_start < min_duration /\ rewards > 0) /\
    (rewards <= 0 -> can_unstake = true) /\
    final o = st /\ sent (log o) = [] /\ prompts (log o) = [].
Proof.
  intros Hts Hmin Hrw o. subst o. destruct st as [w i]. simpl_records.
  apply service_ts_start_inv in Hts as (info & Hinfo & Hnth).
  destruct ((time_time w - ts_start <? min_duration) && (rewards >? 0)) eqn:Hl.
  - one_path (_check_unstaking_availability service_id addr program (mkSt w i)).
    exists false. apply andb_prop in Hl as [H1 H2].
    apply Z.ltb_lt in H1. apply Z.gtb_lt in H2.
    repeat split; try reflexivity; try lia.
  - one_path (_check_unstaking_availability service_id addr program (mkSt w i)).
    exists true. repeat split; try reflexivity; try discriminate.
    all: intros [H1 H2]; exfalso; apply andb_false_iff in Hl as [Hl|Hl];
      [apply Z.ltb_ge in Hl; lia
      |rewrite Z.gtb_ltb in Hl; apply Z.ltb_ge in Hl; lia].
Qed.

(** X15: when the service info has fewer than four components, the
    availability check raises [IndexError] at [[3]], before the minimum
    duration and the rewards are read. *)
Theorem check_unstaking_availability_short_info
    (service_id : Z) (addr : address) (program : string) (st : St W)
    (info : list Z) :
  get_service_info (world st) service_id addr = Ok info ->
  (List.length info < 4)%nat ->
  let o := _check_unstaking_availability service_id addr program st in
  result o = Raise (Exception "IndexError") /\ final o = st /\
  fields_read (log o) = [FServiceInfo].
Proof.
  intros Hinfo Hlen o. subst o. destruct st as [w i]. simpl_records.
  assert (Hnth : nth_error info 3 = None) by (apply nth_error_None; lia).
  one_path (_check_unstaking_availability service_id addr program (mkSt w i)).
  repeat split.
Qed.

(** X16: when the service is staked on an old program queried with
    [is_service_staked], the duration lock does not apply and the operator
    confirms, the step of the sweep builds the unstake batch of that
    program, sends it, and returns, so that the sweep goes on to the next
    program in the world the batch has left. *)
Theorem old_program_unstaked_after_confirmation
    (service_id : Z) (addr : address) (program : string) (st : St W)
    (s : StakingContractState) (answer : string) (rest : list Key) (txs : list Tx) :
  String.prefix "Everest" program = false ->
  snapshot (world st) service_id addr s -> isStaked s = true ->
  ~ duration_locked (time_time (world st)) s ->
  stdin st = Line answer :: rest -> affirmative answer = true ->
  get_unstake_txs (world st) service_id addr = Ok txs ->
  confirmed (world st) txs ->
  let o := _unstake_old_program service_id addr program st in
  result o = Ok tt /\ final o = mkSt (world_after (world st) txs) rest /\
  unstake_batches (log o) = 1%nat /\ sent (log o) = txs /\
  fields_read (log o) =
    [FIsStaked; FServiceInfo; FMinStakingDuration; FAvailableRewards].
Proof.
  intros Hp Hs Hst Hl Hin Hans Htxs Hconf o. subst o.
  destruct st as [w i], s. simpl_records. subst.
  open_snapshot Hs. apply duration_locked_false in Hl. simpl_records.
  pose proof Hconf as Hc. unfold confirmed in Hc. unfold affirmative in Hans.
  one_path (_unstake_old_program service_id addr program
              (mkSt w (Line answer :: rest))).
  rewrite ?(submitted_confirmed _ _ Hconf). simpl_log. repeat split.
Qed.

End Proofs.

(** ** Properties of the test harness *)

Section Harness_strings.
Import Harness.

Local Open Scope string_scope.

Lemma length_append (a b : string) :
  String.length (a ++ b) = (String.length a + String.length b)%nat.
Proof. induction a as [|c a IH]; cbn; [reflexivity|now rewrite IH]. Qed.

Lemma append_assoc (a b c : string) : (a ++ b) ++ c = a ++ b ++ c.
Proof. induction a as [|x a IH]; cbn; [reflexivity|now rewrite IH]. Qed.

Lemma prefix_spec (p n : string) :
  String.prefix p n = true <-> exists b, n = p ++ b.
Proof.
  revert p. induction n as [|c' n IH]; intros [|c p]; simpl.
  - split; eauto.
  - split; [discriminate|intros [b H]; discriminate H].
  - split; eauto.
  - change (String.prefix (String c p) (String c' n))
      with (if ascii_dec c c' then String.prefix p n else false).
    destruct (ascii_dec c c') as [->|Hne].
    + rewrite IH. split; intros [b H]; exists b; congruence.
    + split; [discriminate|intros [b H]; congruence].
Qed.

(** [p in n] holds when [p] occurs in [n]. *)
Lemma str_contains_spec (p n : string) :
  str_contains p n = true <-> exists a b, n = a ++ p ++ b.
Proof.
  induction n as [|c n IH]; cbn [str_contains].
  - rewrite orb_false_r, prefix_spec. split.
    + intros [b H]. exists "", b. exact H.
    + intros (a & b & H). destruct a; [eauto|discriminate H].
  - rewrite orb_true_iff, prefix_spec, IH. split.
    + intros [[b H]|(a & b & H)].
      * exists "", b. exact H.
      * exists (String c a), b. cbn. now rewrite H.
    + intros (a & b & H). destruct a as [|c' a]; cbn in H.
      * left. eauto.
      * right. injection H as _ H. eauto.
Qed.

(** [s.endswith(suffix)] holds when [s] ends with [suffix]. *)
Lemma ends_with_spec (s suffix : string) :
  ends_with s suffix = true <-> exists a, s = a ++ suffix.
Proof.
  induction s as [|c s IH]; cbn [ends_with].
  - rewrite orb_false_r, String.eqb_eq. split.
    + intros <-. exists "". reflexivity.
    + intros [a H]. destruct a; [exact H|discriminate H].
  - rewrite orb_true_iff, String.eqb_eq, IH. split.
    + intros [<-|[a H]].
      * exists "". reflexivity.
      * exists (String c a). cbn. now rewrite H.
    + intros [a H]. destruct a as [|c' a]; cbn in H.
      * left. exact H.
      * right. injection H as _ H. eauto.
Qed.

(** X17: a name is left out of the copy exactly when one of the eight
    patterns occurs in it as a plain substring, or when the name is itself
    the end of one of the patterns.  The patterns are not expanded as globs,
    and the second test does not depend on the pattern the first one is
    made with. *)
Theorem ignore_patterns_spec (path : string) (names : list string) (n : string) :
  In n (ignore_patterns path names) <->
  In n names /\
  ((exists p, In p exclude_patterns /\ exists a b, n = a ++ p ++ b) \/
   (exists p, In p exclude_patterns /\ exists a, p = a ++ n)).
Proof.
  unfold ignore_patterns. rewrite filter_In. apply and_iff_compat_l.
  rewrite existsb_exists. split.
  - intros (p & Hp & H). apply orb_true_iff in H as [H|H].
    + left. exists p. split; [exact Hp|]. now apply str_contains_spec.
    + right. apply existsb_exists in H as (q & Hq & H).
      exists q. split; [exact Hq|]. now apply ends_with_spec.
  - intros [(p & Hp & H)|(q & Hq & H)].
    + exists p. split; [exact Hp|]. apply orb_true_iff. left.
      now apply str_contains_spec.
    + exists ".git". split; [now left|]. apply orb_true_iff. right.
      apply existsb_exists. exists q. split; [exact Hq|]. now apply ends_with_spec.
Qed.

(** Every way of writing a given string as [a ++ stem ++ ext]. *)
Ltac chop_string :=
  repeat (cbn [append] in *;
          match goal with
          | H : EmptyString = String _ _ |- _ => discriminate H
          | H : String _ _ = EmptyString |- _ => discriminate H
          | H : String _ _ = String _ _ |- _ =>
              let Hc := fresh "Hc" in injection H as Hc H; try discriminate Hc
          | H : _ = ?a ++ _ |- _ => is_var a; destruct a
          end).

(** X18: the patterns ["*.pyc"] and ["*.log"] do not keep compiled files and
    log files out of the copy: a name [stem.pyc] or [stem.log], with a stem
    other than the empty string and ["*"], is copied unless one of the
    eight patterns occurs in it literally. *)
Theorem bytecode_and_log_files_are_copied
    (path : string) (names : list string) (stem ext : string) :
  ext = ".pyc" \/ ext = ".log" -> stem <> "" -> stem <> "*" ->
  (forall p, In p exclude_patterns -> str_contains p (stem ++ ext) = false) ->
  ~ In (stem ++ ext) (ignore_patterns path names).
Proof.
  intros Hext Hne Hstar Hlit Hin.
  apply ignore_patterns_spec in Hin as [_ [(p & Hp & Hc)|(q & Hq & a & Hq')]].
  - apply str_contains_spec in Hc. rewrite (Hlit p Hp) in Hc. discriminate Hc.
  - clear Hlit. unfold exclude_patterns in Hq. cbn [In] in Hq.
    destruct Hext; subst ext;
      repeat (destruct Hq as [Hq|Hq]; [subst q|]); try contradiction;
      chop_string; congruence.
Qed.


End Harness_strings.


Section Harness_checks.
Import Harness.
Context {D : Type} {docker : Docker D}.
Variable HEALTH_CHECK_URL : string.

Local Open Scope harness_scope.

Lemma polls_app (a b : list HEvent) : polls (a ++ b) = (polls a + polls b)%nat.
Proof. induction a as [|[] a IH]; cbn; congruence. Qed.

Lemma sleeps_app (a b : list HEvent) : sleeps (a ++ b) = sleeps a ++ sleeps b.
Proof. induction a as [|[] a IH]; cbn; congruence. Qed.

Lemma logs_fetched_app (a b : list HEvent) :
  logs_fetched (a ++ b) = logs_fetched a ++ logs_fetched b.
Proof. induction a as [|[] a IH]; cbn; congruence. Qed.

Ltac unfold_checks :=
  unfold check_shutdown_logs, shutdown_log_body, attempt_body, give_up_or_wait,
    report_container, time_sleep, logger_info, logger_error, emit, call, try_except,
    ret, bind, max_retries, retry_delay, result, final, log.

(** The scrutinee the evaluation of a term is waiting for. *)
Ltac waits_for t :=
  lazymatch t with
  | match ?x with Ok _ => _ | Raise _ => _ end => waits_for x
  | match ?x with Some _ => _ | None => _ end => waits_for x
  | match ?x with SystemExit _ => _ | KeyboardInterrupt => _ | Exception _ => _ end =>
      waits_for x
  | match ?x with [] => _ | _ :: _ => _ end => waits_for x
  | match ?x with pair _ _ => _ end => waits_for x
  | if ?b then _ else _ => waits_for b
  | ?f ?x => let r := waits_for f in lazymatch r with f => t | _ => r end
  | _ => t
  end.

(** *** The shutdown check *)

Lemma for_return_cons {A B} (body : A -> H D (option B)) (x : A) (l : list A) (d : D) :
  for_return (x :: l) body d =
  match body x d with
  | (Ok (Some v), d1, t1) => (Ok (Some v), d1, t1 ++ [])
  | (Ok None, d1, t1) =>
      match for_return l body d1 with
      | (r, d2, t2) => (r, d2, t1 ++ t2)
      end
  | (Raise e, d1, t1) => (Raise e, d1, t1)
  end.
Proof.
  cbn [for_return]. unfold bind.
  destruct (body x d) as [[[[v|]|e] d1] t1]; reflexivity.
Qed.

Lemma shutdown_log_body_run (c : Container) (d : D) :
  shutdown_log_body c d =
  match container_logs d (c_id c) None with
  | Ok l =>
      if clean_logs l then (Ok None, d, [ELogs (c_id c) None])
      else (Ok (Some false), d,
            [ELogs (c_id c) None; ELog Error (MsgShutdownErrors (c_name c))])
  | Raise e => (Raise e, d, [ELogs (c_id c) None])
  end.
Proof.
  unfold shutdown_log_body, clean_logs, bind, call, ret, logger_error, emit.
  destruct (container_logs d (c_id c) None) as [l|e]; [|reflexivity].
  destruct (str_contains "Error during shutdown" l
            || str_contains "Failed to gracefully stop" l); reflexivity.
Qed.

(** The loop goes through clean containers, fetching the logs of each. *)
Lemma shutdown_loop_passes_clean
    (before rest : list Container) (d : D) :
  Forall (shuts_down_cleanly d) before ->
  for_return (before ++ rest) shutdown_log_body d =
  (result (for_return rest shutdown_log_body d),
   final (for_return rest shutdown_log_body d),
   map (fun c => ELogs (c_id c) None) before
     ++ log (for_return rest shutdown_log_body d)).
Proof.
  induction 1 as [|c before (l & Hl & Hc) _ IH]; cbn [app map].
  - unfold result, final, log.
    now destruct (for_return rest shutdown_log_body d) as [[r d'] t].
  - rewrite for_return_cons, shutdown_log_body_run, Hl, Hc, IH. reflexivity.
Qed.

(** The loop never changes the runtime, never returns [True], and returns
    or raises only at a container whose logs show an error or cannot be
    read. *)
Lemma shutdown_loop_spec (cs : list Container) (d : D) :
  final (for_return cs shutdown_log_body d) = d /\
  match result (for_return cs shutdown_log_body d) with
  | Ok None => Forall (shuts_down_cleanly d) cs
  | Ok (Some b) =>
      b = false /\
      exists c l, In c cs /\ container_logs d (c_id c) None = Ok l /\
                  clean_logs l = false
  | Raise e => exists c, In c cs /\ container_logs d (c_id c) None = Raise e
  end.
Proof.
  induction cs as [|c cs IH].
  - split; [reflexivity|constructor].
  - rewrite for_return_cons, shutdown_log_body_run. unfold result, final in *.
    destruct (container_logs d (c_id c) None) as [l|e] eqn:Hl.
    + destruct (clean_logs l) eqn:Hc.
      * destruct (for_return cs shutdown_log_body d) as [[r d'] t]. cbn in *.
        destruct IH as [-> IH]. split; [reflexivity|].
        destruct r as [[b|]|e].
        -- destruct IH as (-> & c' & l' & Hin & H). split; [reflexivity|].
           exists c', l'. split; [now right|exact H].
        -- constructor; [|exact IH]. exists l. split; [exact Hl|exact Hc].
        -- destruct IH as (c' & Hin & H). exists c'. split; [now right|exact H].
      * cbn. split; [reflexivity|]. split; [reflexivity|].
        exists c, l. split; [now left|]. split; [exact Hl|exact Hc].
    + cbn. split; [reflexivity|]. exists c. split; [now left|exact Hl].
Qed.

Lemma not_clean_and_dirty (d : D) (cs : list Container) (c : Container) (r : Res string) :
  Forall (shuts_down_cleanly d) cs -> In c cs ->
  container_logs d (c_id c) None = r ->
  exists l, r = Ok l /\ clean_logs l = true.
Proof.
  intros Hall Hin Hr. rewrite Forall_forall in Hall.
  destruct (Hall c Hin) as (l & Hl & Hc). exists l. split; [congruence|exact Hc].
Qed.

(** X19: the shutdown check returns [True] exactly when the runtime can be
    reached, the containers named "traderpearl" can be listed, and the logs
    of every one of them can be read and contain neither "Error during
    shutdown" nor "Failed to gracefully stop" (so also when there is no
    such container).  It never lets an exception deriving from [Exception]
    escape, and it leaves the runtime as it found it. *)
Theorem check_shutdown_logs_spec (d : D) :
  let o := check_shutdown_logs d in
  (result o = Ok true <->
   from_env d = Ok tt /\
   exists cs, containers_list d false "traderpearl" = Ok cs /\
              Forall (shuts_down_cleanly d) cs) /\
  (forall e, result o = Raise e -> is_Exception e = false) /\
  final o = d.
Proof.
  unfold check_shutdown_logs, try_except, bind, call, ret, logger_info, logger_error,
    emit, result, final. cbn.
  destruct (from_env d) as [[]|e] eqn:Hf; cbn.
  - destruct (containers_list d false "traderpearl") as [cs|e] eqn:Hcs; cbn.
    + pose proof (shutdown_loop_spec cs d) as [Hd Hr]. unfold result, final in *.
      destruct (for_return cs shutdown_log_body d) as [[r d'] t]. cbn in *. subst d'.
      destruct r as [[b|]|e]; cbn.
      * destruct Hr as (-> & c & l & Hin & Hl & Hc). cbn.
        split; [|split; [discriminate|reflexivity]].
        split; [discriminate|]. intros (_ & cs' & [= <-] & Hall).
        destruct (not_clean_and_dirty d cs c _ Hall Hin Hl) as (l' & [= <-] & Hc').
        congruence.
      * split; [|split; [discriminate|reflexivity]].
        split; [intros _|reflexivity]. split; [reflexivity|]. eauto.
      * destruct Hr as (c & Hin & Hl).
        assert (Hno : ~ (Ok tt = Ok tt /\
                         exists cs', Ok cs = Ok cs' /\
                                     Forall (shuts_down_cleanly d) cs')).
        { intros (_ & cs' & [= <-] & Hall).
          destruct (not_clean_and_dirty d cs c _ Hall Hin Hl) as (l' & Hbad & _).
          discriminate Hbad. }
        destruct e; cbn; (split; [split; [discriminate|intros H; destruct (Hno H)]|]);
          (split; [|reflexivity]); intros e' [= <-]; reflexivity.
    + assert (Hno : ~ (Ok tt = Ok tt /\
                       exists cs', @Raise (list Container) e = Ok cs' /\
                                   Forall (shuts_down_cleanly d) cs')).
      { intros (_ & cs' & Hbad & _). discriminate Hbad. }
      destruct e; cbn; (split; [split; [discriminate|intros H; destruct (Hno H)]|]);
        (split; [|reflexivity]); intros e' [= <-]; reflexivity.
  - assert (Hno : ~ (@Raise unit e = Ok tt /\
                     exists cs', containers_list d false "traderpearl" = Ok cs' /\
                                 Forall (shuts_down_cleanly d) cs')).
    { intros (Hbad & _). discriminate Hbad. }
    destruct e; cbn; (split; [split; [discriminate|intros H; destruct (Hno H)]|]);
      (split; [|reflexivity]); intros e' [= <-]; reflexivity.
Qed.

(** X20: the shutdown check stops at the first container whose logs show an
    error: it returns [False], having fetched the logs of the containers
    before it and of that one, and of none after it. *)
Theorem check_shutdown_logs_stops_at_first_error
    (d : D) (before after : list Container) (c : Container) (l : string) :
  from_env d = Ok tt ->
  containers_list d false "traderpearl" = Ok (before ++ c :: after) ->
  Forall (shuts_down_cleanly d) before ->
  container_logs d (c_id c) None = Ok l -> clean_logs l = false ->
  let o := check_shutdown_logs d in
  result o = Ok false /\
  logs_fetched (log o) = map c_id before ++ [c_id c] /\
  final o = d.
Proof.
  intros Hf Hcs Hall Hl Hc.
  assert (E : check_shutdown_logs d =
              (Ok false, d,
               [EFromEnv; EList false "traderpearl"]
               ++ map (fun c => ELogs (c_id c) None) before
               ++ [ELogs (c_id c) None; ELog Error (MsgShutdownErrors (c_name c))])).
  { unfold check_shutdown_logs, try_except, bind, call. rewrite Hf, Hcs.
    rewrite (shutdown_loop_passes_clean before (c :: after) d Hall).
    rewrite for_return_cons, shutdown_log_body_run, Hl, Hc.
    unfold result, final, log, ret. cbn. rewrite !app_nil_r. reflexivity. }
  cbn zeta. rewrite E. unfold result, final, log. cbn [fst snd].
  repeat split. cbn. rewrite logs_fetched_app. cbn. f_equal.
  clear. induction before as [|x before IH]; cbn; congruence.
Qed.

(** *** The container status check *)

Local Arguments String.eqb : simpl never.
Local Arguments Harness.for_each : simpl never.
Local Arguments forallb : simpl never.

(** One step on every path of a check. *)
Ltac check_step :=
  lazymatch goal with
  | |- ?P ?o =>
      lazymatch o with (_, _) => fail | _ => idtac end;
      let x := waits_for o in
      destruct x eqn:?
  end; cbn.

Ltac check_paths o :=
  let P := fresh "P" in
  let HP := fresh "HP" in
  pattern o;
  match goal with |- ?Q _ => remember Q as P eqn:HP end;
  unfold_checks; cbn; repeat check_step; subst P; cbn beta;
  unfold result, final, log; cbn [fst snd].

(** The report on a container reads the runtime and logs; it neither
    sleeps nor reconnects. *)
Lemma report_container_quiet (c : Container) (d : D) :
  final (report_container c d) = d /\
  sleeps (log (report_container c d)) = [] /\
  polls (log (report_container c d)) = 0%nat.
Proof.
  check_paths (report_container c d); repeat split.
Qed.

Lemma report_loop_quiet (cs : list Container) (d : D) :
  final (for_each cs report_container d) = d /\
  sleeps (log (for_each cs report_container d)) = [] /\
  polls (log (for_each cs report_container d)) = 0%nat.
Proof.
  induction cs as [|c cs IH].
  - repeat split.
  - change (for_each (c :: cs) report_container d)
      with (bind (report_container c) (fun _ => for_each cs report_container) d).
    pose proof (report_container_quiet c d) as (H1 & H2 & H3).
    unfold bind, result, final, log in *.
    destruct (report_container c d) as [[[[]|e] d1] t1]; cbn in *; subst d1.
    + destruct (for_each cs report_container d) as [[r d2] t2]. cbn in *.
      destruct IH as (-> & I2 & I3). rewrite sleeps_app, polls_app, H2, H3, I2, I3.
      repeat split.
    + repeat split; assumption.
Qed.

(** A report on containers that are neither exited nor restarting only
    logs their status. *)
Lemma report_loop_of_running (cs : list Container) (d : D) :
  Forall (fun c => c_status c <> "exited" /\ c_status c <> "restarting") cs ->
  for_each cs report_container d =
  (Ok tt, d, map (fun c => ELog Info (MsgContainerStatus (c_name c) (c_status c))) cs).
Proof.
  induction 1 as [|c cs [H1 H2] _ IH]; [reflexivity|].
  change (for_each (c :: cs) report_container d)
    with (bind (report_container c) (fun _ => for_each cs report_container) d).
  unfold bind. unfold report_container at 1. unfold bind, logger_info, emit, ret.
  apply String.eqb_neq in H1, H2. rewrite H1, H2, IH. reflexivity.
Qed.

Local Arguments report_container : simpl never.

(** What one attempt does, on every path: it connects once; it goes on to
    the next attempt only after one sleep of [retry_delay] and never on the
    last attempt; it returns [True] only on containers seen running,
    [False] only on the last attempt; an exception it raises does not
    derive from [Exception]. *)
Lemma attempt_spec (name : string) (attempt : Z) (d : D) :
  polls (log (attempt_body name attempt d)) = 1%nat /\
  match result (attempt_body name attempt d) with
  | Ok None =>
      attempt <> 2 /\
      sleeps (log (attempt_body name attempt d)) = [retry_delay] /\
      final (attempt_body name attempt d) = sleep d retry_delay
  | Ok (Some b) =>
      sleeps (log (attempt_body name attempt d)) = [] /\
      final (attempt_body name attempt d) = d /\
      (if b then observed_running d name else attempt = 2)
  | Raise e =>
      is_Exception e = false /\
      sleeps (log (attempt_body name attempt d)) = [] /\
      final (attempt_body name attempt d) = d
  end.
Proof.
  pattern (attempt_body name attempt d).
  match goal with |- ?Q _ => remember Q as P eqn:HP end.
  unfold attempt_body, give_up_or_wait, time_sleep, logger_info, logger_error, emit,
    call, try_except, ret, bind, max_retries, retry_delay, result, final, log; cbn.
  repeat
    (lazymatch goal with
     | |- ?P ?o =>
         lazymatch o with (_, _) => fail | _ => idtac end;
         let x := waits_for o in
         lazymatch x with
         | Harness.for_each ?l report_container ?d0 =>
             let Hq := fresh "Hq" in
             pose proof (report_loop_quiet l d0) as Hq;
             unfold final, log in Hq;
             destruct (Harness.for_each l report_container d0) as [[? ?] ?];
             cbn [fst snd] in Hq;
             destruct Hq as (-> & ? & ?)
         | _ => destruct x eqn:?
         end
     end; cbn).
  all: subst P; cbn beta; unfold result, final, log; cbn [fst snd]; cbn.
  all: rewrite ?polls_app, ?sleeps_app; cbn.
  all: repeat match goal with
         | H : polls _ = _ |- _ => rewrite H
         | H : sleeps _ = _ |- _ => rewrite H
         | H : (_ =? _) = true |- _ => apply Z.eqb_eq in H
         | H : (_ =? _) = false |- _ => apply Z.eqb_neq in H
         end; cbn.
  all: repeat split; try assumption; try reflexivity.
  all: unfold observed_running; do 2 eexists;
    repeat split; try eassumption; discriminate.
Qed.

Local Arguments attempt_body : simpl never.

(** Every run of the status check, in one statement. *)
Lemma check_docker_status_run (config_path : string) (d : D) :
  let name := container_name (get_service_config HEALTH_CHECK_URL config_path) in
  let o := check_docker_status HEALTH_CHECK_URL config_path d in
  exists n : nat,
    (n <= 2)%nat /\ polls (log o) = S n /\
    sleeps (log o) = repeat retry_delay n /\
    final o = after_sleeps n d /\
    match result o with
    | Ok true => observed_running (final o) name
    | Ok false => n = 2%nat
    | Raise e => is_Exception e = false
    end.
Proof.
  intros name o. subst o. unfold check_docker_status. fold name.
  generalize name. clear name. intros name.
  unfold for_return, bind, ret, result, final, log.
  pose proof (attempt_spec name 0 d) as (P0 & S0).
  unfold result, final, log in *.
  destruct (attempt_body name 0 d) as [[[[b0|]|e0] d0] t0]; cbn in *.
  - exists 0%nat. destruct S0 as (S0 & -> & B0). rewrite !app_nil_r, P0, S0.
    destruct b0; [repeat split; [lia|exact B0]|discriminate B0].
  - destruct S0 as (_ & S0 & ->).
    pose proof (attempt_spec name 1 (sleep d retry_delay)) as (P1 & S1).
    unfold result, final, log in *.
    destruct (attempt_body name 1 (sleep d retry_delay)) as [[[[b1|]|e1] d1] t1];
      cbn in *.
    + exists 1%nat. destruct S1 as (S1 & -> & B1).
      rewrite !app_nil_r, polls_app, sleeps_app, P0, S0, P1, S1.
      destruct b1; [repeat split; [lia|exact B1]|discriminate B1].
    + destruct S1 as (_ & S1 & ->).
      pose proof (attempt_spec name 2 (sleep (sleep d retry_delay) retry_delay))
        as (P2 & S2).
      unfold result, final, log in *.
      destruct (attempt_body name 2 (sleep (sleep d retry_delay) retry_delay))
        as [[[[b2|]|e2] d2] t2]; cbn in *.
      * exists 2%nat. destruct S2 as (S2 & -> & B2).
        rewrite !app_nil_r, !polls_app, !sleeps_app, P0, S0, P1, S1, P2, S2.
        destruct b2; repeat split; try lia; exact B2.
      * destruct S2 as (S2 & _). now destruct S2.
      * exists 2%nat. destruct S2 as (E2 & S2 & ->).
        rewrite !polls_app, !sleeps_app, P0, S0, P1, S1, P2, S2.
        repeat split; try lia; exact E2.
    + exists 1%nat. destruct S1 as (E1 & S1 & ->).
      rewrite polls_app, sleeps_app, P0, S0, P1, S1.
      repeat split; try lia; exact E1.
  - exists 0%nat. destruct S0 as (E0 & S0 & ->). rewrite P0, S0.
    repeat split; try lia; exact E0.
Qed.

(** X21: the status check connects to the runtime at least once and at most
    three times, sleeps [retry_delay] seconds between two attempts and
    never after the last one, so at most 40 seconds in all.  It returns
    [False] only after the third attempt, and it never lets an exception
    deriving from [Exception] escape. *)
Theorem check_docker_status_bounded (config_path : string) (d : D) :
  let o := check_docker_status HEALTH_CHECK_URL config_path d in
  (1 <= polls (log o) <= 3)%nat /\
  sleeps (log o) = repeat 20 (polls (log o) - 1) /\
  final o = after_sleeps (polls (log o) - 1) d /\
  (result o = Ok false -> polls (log o) = 3%nat) /\
  (forall e, result o = Raise e -> is_Exception e = false).
Proof.
  destruct (check_docker_status_run config_path d) as (n & Hn & Hp & Hs & Hf & Hr).
  cbn zeta. rewrite Hp. cbn [Nat.sub]. rewrite Nat.sub_0_r.
  repeat split; try lia; try assumption.
  - intros H. rewrite H in Hr. lia.
  - intros e H. rewrite H in Hr. exact Hr.
Qed.

(** X22: the status check returns [True] only on what it has just seen: in
    the runtime it leaves, containers of the configured name exist, some
    are listed as running, and all of those have the status "running". *)
Theorem check_docker_status_true (config_path : string) (d : D) :
  let o := check_docker_status HEALTH_CHECK_URL config_path d in
  result o = Ok true ->
  observed_running (final o)
    (container_name (get_service_config HEALTH_CHECK_URL config_path)).
Proof.
  destruct (check_docker_status_run config_path d) as (n & _ & _ & _ & _ & Hr).
  cbn zeta. intros H. rewrite H in Hr. exact Hr.
Qed.

(** X23: when the first look at the runtime finds containers of the
    configured name, none of them exited or restarting, and the ones listed
    as running all have the status "running", the check returns [True] at
    once: one connection, no sleep, no container log fetched. *)
Theorem check_docker_status_healthy
    (config_path : string) (d : D) (all running : list Container) :
  let name := container_name (get_service_config HEALTH_CHECK_URL config_path) in
  from_env d = Ok tt ->
  containers_list d true name = Ok all -> all <> [] ->
  Forall (fun c => c_status c <> "exited" /\ c_status c <> "restarting") all ->
  containers_list d false name = Ok running -> running <> [] ->
  forallb (fun c => String.eqb (c_status c) "running") running = true ->
  let o := check_docker_status HEALTH_CHECK_URL config_path d in
  result o = Ok true /\ final o = d /\
  polls (log o) = 1%nat /\ sleeps (log o) = [] /\ logs_fetched (log o) = [].
Proof.
  intros name Hf Hall Hne Hst Hrun Hnr Hfb.
  assert (E : attempt_body name 0 d =
              (Ok (Some true), d,
               [ELog Info (MsgChecking 1 max_retries); EFromEnv; EList true name;
                EList false name]
               ++ map (fun c => ELog Info (MsgContainerStatus (c_name c) (c_status c)))
                    all
               ++ [ELog Info (MsgAllRunning name)])).
  { unfold attempt_body, try_except, bind, call, logger_info, emit, ret.
    rewrite Hf, Hall, Hrun. destruct all as [|c all]; [congruence|].
    destruct running as [|r running]; [congruence|].
    rewrite (report_loop_of_running (c :: all) d Hst), Hfb. cbn.
    rewrite ?app_nil_r. reflexivity. }
  assert (E' : check_docker_status HEALTH_CHECK_URL config_path d =
               (Ok true, d,
                [ELog Info (MsgChecking 1 max_retries); EFromEnv; EList true name;
                 EList false name]
                ++ map (fun c => ELog Info (MsgContainerStatus (c_name c) (c_status c)))
                     all
                ++ [ELog Info (MsgAllRunning name)])).
  { unfold check_docker_status. fold name. unfold for_return, bind, ret.
    rewrite E. cbn. rewrite ?app_nil_r. reflexivity. }
  cbn zeta. rewrite E'. unfold result, final, log. cbn [fst snd].
  split; [reflexivity|]. split; [reflexivity|].
  rewrite polls_app, sleeps_app, logs_fetched_app. cbn.
  rewrite polls_app, sleeps_app, logs_fetched_app. cbn. rewrite ?app_nil_r.
  assert (Hq : polls (map (fun c => ELog Info (MsgContainerStatus (c_name c) (c_status c))) all) = 0%nat /\
               sleeps (map (fun c => ELog Info (MsgContainerStatus (c_name c) (c_status c))) all) = [] /\
               logs_fetched (map (fun c => ELog Info (MsgContainerStatus (c_name c) (c_status c))) all) = []).
  { clear. induction all as [|c all IH]; cbn; [repeat split|exact IH]. }
  destruct Hq as (-> & -> & ->). repeat split.
Qed.


End Harness_checks.

(** ** The environment of the child process *)

Section Harness_environment.
Import Harness.
Context {platform : Platform}.

Lemma split_not_nil (sep : ascii) (s : string) : split sep s <> [].
Proof.
induction s as [|c s IH]; cbn; [discriminate|].
destruct (Ascii.eqb c sep); [discriminate|].
destruct (split sep s); discriminate.
Qed.

Lemma join_split (sep : ascii) (s : string) : join sep (split sep s) = s.
Proof.
induction s as [|c s IH]; [reflexivity|].
cbn [split]. destruct (Ascii.eqb_spec c sep) as [->|Hc].
- pose proof (split_not_nil sep s) as Hn.
  cbn [join]. destruct (split sep s) as [|x l]; [contradiction|].
  cbn [append]. now rewrite IH.
- pose proof (split_not_nil sep s) as Hn.
  destruct (split sep s) as [|x l]; [contradiction|].
  rewrite <- IH. destruct l; reflexivity.
Qed.

Lemma split_no_sep (sep : ascii) (s : string) :
  Forall (fun p => has_char sep p = false) (split sep s).
Proof.
induction s as [|c s IH]; cbn [split].
- now constructor.
- destruct (Ascii.eqb c sep) eqn:Hc.
  + now constructor.
  + destruct (split sep s) as [|x l]; constructor.
    * cbn. now rewrite Hc.
    * constructor.
    * cbn. rewrite Hc. now inversion IH.
    * now inversion IH.
Qed.

Lemma split_entry (sep : ascii) (x : string) :
  has_char sep x = false -> split sep x = [x].
Proof.
induction x as [|c x IH]; [reflexivity|].
cbn. destruct (Ascii.eqb c sep); [discriminate|].
cbn. intros H. now rewrite (IH H).
Qed.

Lemma split_append (sep : ascii) (x r : string) :
  has_char sep x = false ->
  split sep (x ++ String sep r) = x :: split sep r.
Proof.
induction x as [|c x IH].
- intros _. cbn. now rewrite Ascii.eqb_refl.
- cbn. destruct (Ascii.eqb c sep); [discriminate|].
  cbn. intros H. now rewrite (IH H).
Qed.

Lemma split_join (sep : ascii) (l : list string) :
  l <> [] ->
  Forall (fun p => has_char sep p = false) l ->
  split sep (join sep l) = l.
Proof.
induction l as [|x l IH]; [contradiction|].
intros _ Hl. inversion Hl as [|? ? Hx Hl']; subst.
destruct l as [|y l].
- cbn. now apply split_entry.
- cbn [join]. rewrite (split_append _ _ _ Hx).
  f_equal. apply IH; [discriminate|assumption].
Qed.

Lemma filter_no_sep (sep : ascii) (keep : string -> bool) (s : string) :
  Forall (fun p => has_char sep p = false) (filter keep (split sep s)).
Proof.
apply Forall_forall. intros p Hp. apply filter_In in Hp as [Hp _].
pose proof (split_no_sep sep s) as H.
rewrite Forall_forall in H. now apply H.
Qed.

(** X24: with a virtual environment whose site-packages directory is
    found and a [PATH] in the environment, [_setup_environment] succeeds and
    the entries of the new [PATH] are the entries of the old one that do
    not start with the virtual environment's path, in their order; when
    none is left the new [PATH] is the empty string, which reads as one
    empty entry.  No entry of the new [PATH] starts with the virtual
    environment's path. *)
Theorem setup_environment_filters_path (environ : Environ)
    (venv_path path : string) :
  environ "VIRTUAL_ENV" = Some venv_path ->
  venv_path <> EmptyString ->
  os_name = "nt" \/ glob_site_packages venv_path <> [] ->
  environ "PATH" = Some path ->
  let kept :=
    filter (fun p => negb (String.prefix venv_path p))
      (split os_pathsep path) in
  exists (temp_env : Environ) (new_path : string),
    _setup_environment environ
    = (Ok tt, temp_env, [SettingUp; SetupCompleted])
    /\ temp_env "PATH" = Some new_path
    /\ split os_pathsep new_path
       = match kept with [] => [EmptyString] | _ => kept end
    /\ Forall (fun p => String.prefix venv_path p = false)
         (split os_pathsep new_path).
Proof.
intros Hv Hne Hsite Hpath kept.
assert (Hsplit : split os_pathsep (join os_pathsep kept)
                 = match kept with [] => [EmptyString] | _ => kept end).
{ destruct kept as [|x l] eqn:Hk; [reflexivity|].
  rewrite <- Hk. apply split_join; [rewrite Hk; discriminate|].
  apply filter_no_sep. }
unfold _setup_environment. rewrite Hv.
destruct venv_path as [|c v]; [contradiction|].
assert (Hfound : exists site,
  (if String.eqb os_name "nt" then Ok (nt_site_packages (String c v))
   else match glob_site_packages (String c v) with
        | site_packages :: _ => Ok site_packages
        | [] => Raise (Py.Exception "IndexError")
        end) = Ok site).
{ destruct (String.eqb_spec os_name "nt") as [E|E]; [eauto|].
  destruct Hsite as [E'|Hg]; [contradiction|].
  destruct (glob_site_packages (String c v)); [contradiction|eauto]. }
destruct Hfound as [site ->].
cbv beta iota zeta.
replace (set "PYTHONPATH" _ _ "PATH") with (Some path)
  by (unfold set, pop; cbn; now rewrite Hpath).
eexists _, (join os_pathsep kept).
split; [reflexivity|].
split; [unfold set; cbn; reflexivity|].
split; [exact Hsplit|].
rewrite Hsplit. destruct kept as [|x l] eqn:Hk.
- constructor; [reflexivity|constructor].
- rewrite <- Hk. apply Forall_forall. intros p Hp.
  apply filter_In in Hp as [_ Hp]. now apply negb_true_iff in Hp.
Qed.

(** X25: however [_setup_environment] ends, the environment it leaves has
    neither [VIRTUAL_ENV] nor [POETRY_ACTIVE], and every variable other than
    these two, [PYTHONPATH] and [PATH] is as in [os.environ]. *)
Theorem setup_environment_keeps_other_variables (environ : Environ) :
  let temp_env := snd (fst (_setup_environment environ)) in
  temp_env "VIRTUAL_ENV" = None
  /\ temp_env "POETRY_ACTIVE" = None
  /\ forall k : string,
       k <> "VIRTUAL_ENV" -> k <> "POETRY_ACTIVE" ->
       k <> "PYTHONPATH" -> k <> "PATH" ->
       temp_env k = environ k.
Proof.
assert (Hpop : forall k : string,
  k <> "VIRTUAL_ENV" -> k <> "POETRY_ACTIVE" ->
  pop "POETRY_ACTIVE" (pop "VIRTUAL_ENV" environ) k = environ k).
{ intros k H1 H2. unfold pop.
  destruct (String.eqb_spec k "POETRY_ACTIVE"); [contradiction|].
  destruct (String.eqb_spec k "VIRTUAL_ENV"); [contradiction|reflexivity]. }
assert (Hset : forall (key v : string) (env : Environ) (k : string),
  k <> key -> set key v env k = env k).
{ intros key v env k H. unfold set.
  destruct (String.eqb_spec k key); [contradiction|reflexivity]. }
unfold _setup_environment.
destruct (environ "VIRTUAL_ENV") as [[|c v]|]; cbn [fst snd];
  try (split; [reflexivity|split; [reflexivity|]];
       intros k H1 H2 _ _; now apply Hpop).
destruct (if String.eqb os_name "nt" then _ else _) as [site|e];
  cbn [fst snd];
  try (split; [reflexivity|split; [reflexivity|]];
       intros k H1 H2 _ _; now apply Hpop).
cbv zeta.
destruct (set "PYTHONPATH" _ _ "PATH") as [path|]; cbn [fst snd].
- split; [reflexivity|split; [reflexivity|]].
  intros k H1 H2 H3 H4. rewrite !Hset by assumption. now apply Hpop.
- split; [reflexivity|split; [reflexivity|]].
  intros k H1 H2 H3 H4. rewrite !Hset by assumption. now apply Hpop.
Qed.

(** X26: with a virtual environment, [_setup_environment] raises
    [IndexError] when the site-packages directory is not found on a
    platform other than Windows, before anything but the two removals is
    done to the environment; and it raises [KeyError] when the
    site-packages directory is found and the environment has no [PATH],
    with [PYTHONPATH] already set.  In both cases the completion is not
    logged. *)
Theorem setup_environment_failures (environ : Environ) (venv_path : string) :
  environ "VIRTUAL_ENV" = Some venv_path ->
  venv_path <> EmptyString ->
  (os_name <> "nt" -> glob_site_packages venv_path = [] ->
   exists temp_env : Environ,
     _setup_environment environ
     = (Raise (Py.Exception "IndexError"), temp_env, [SettingUp])
     /\ forall k : string,
          k <> "VIRTUAL_ENV" -> k <> "POETRY_ACTIVE" -> temp_env k = environ k)
  /\ (os_name = "nt" \/ glob_site_packages venv_path <> [] ->
      environ "PATH" = None ->
      exists temp_env : Environ,
        _setup_environment environ
        = (Raise (Py.Exception "KeyError"), temp_env, [SettingUp])
        /\ temp_env "PYTHONPATH" <> None /\ temp_env "PATH" = None).
Proof.
intros Hv Hne.
unfold _setup_environment. rewrite Hv.
destruct venv_path as [|c v]; [contradiction|].
split.
- intros Hos Hg.
  destruct (String.eqb_spec os_name "nt") as [E|_]; [contradiction|].
  rewrite Hg. eexists. split; [reflexivity|].
  intros k H1 H2. unfold pop.
  destruct (String.eqb_spec k "POETRY_ACTIVE"); [contradiction|].
  destruct (String.eqb_spec k "VIRTUAL_ENV"); [contradiction|reflexivity].
- intros Hsite Hpath.
  assert (Hfound : exists site,
    (if String.eqb os_name "nt" then Ok (nt_site_packages (String c v))
     else match glob_site_packages (String c v) with
          | site_packages :: _ => Ok site_packages
          | [] => Raise (Py.Exception "IndexError")
          end) = Ok site).
  { destruct (String.eqb_spec os_name "nt") as [E|E]; [eauto|].
    destruct Hsite as [E'|Hg]; [contradiction|].
    destruct (glob_site_packages (String c v)); [contradiction|eauto]. }
  destruct Hfound as [site ->].
  cbv beta iota zeta.
  replace (set "PYTHONPATH" _ _ "PATH") with (@None string)
    by (unfold set, pop; cbn; now rewrite Hpath).
  eexists. split; [reflexivity|]. split.
  + unfold set. cbn. discriminate.
  + unfold set, pop. cbn. exact Hpath.
Qed.

End Harness_environment.


(** ** Runs on the simulated ledger *)

Section Runs.
Import Sim.

Local Ltac holds := first [ reflexivity | vm_compute; reflexivity
                          | repeat split | lia | discriminate ].

Local Ltac is_snapshot := unfold snapshot; repeat split.

Local Ltac is_locked := split; [reflexivity | reflexivity].

Local Ltac not_locked :=
  let H := fresh in intros [H _]; vm_compute in H; discriminate H.

Local Ltac is_confirmed := unfold confirmed; vm_compute; reflexivity.

Local Ltac computes := vm_compute; reflexivity.

Example format_duration_example : _format_duration 100000 = "1D 3h 46m".
Proof. reflexivity. Qed.

Example lower_example : lower "YeS" = "yes" /\ affirmative "Y" = true /\
  affirmative "yes " = false /\ affirmative "" = false.
Proof. repeat split. Qed.

(** The scenario of the specification: the service is a member of Everest
    and not staked on the target, which has two free slots and 500 of
    rewards; the operator confirms.  The sweep unstakes from Everest, then
    the engine stakes, and the run ends with status 0. *)
Example everest_then_stake :
  let o := main (argv "")
             (mkSt (chain 100 staked_on_everest (state_of stakeable)) [Line "yes"]) in
  result o = Raise (SystemExit 0) /\
  sent (log o) = [Unstake 7 everest; Approve 7 registry target; Stake 7 target] /\
  programs_checked (log o) = ["Everest"; "Alpine"; "CoastalTest"].
Proof. vm_compute. repeat split. Qed.

(** C1: a service staked and evicted for 50 seconds on a contract with a
    minimum duration of 100 seconds and rewards left is not unstaked. *)
Lemma evicted_always_unstakes_fails :
  ~ evicted_always_unstakes (args false) (st_of 100 evicted_locked [])
      evicted_locked [Unstake 7 target].
Proof.
  intros H.
  destruct H as [H _]; [is_snapshot | reflexivity | reflexivity | reflexivity
                       | reflexivity | is_confirmed | ].
  vm_compute in H. discriminate H.
Qed.

Lemma evicted_unstakes_unless_locked_witness :
  (let o := decision_engine (args false) (st_of 100 evicted_locked []) in
   result o = Raise (SystemExit 1) /\ sent (log o) = []) /\
  (let o := decision_engine (args false) (st_of 100 evicted_free []) in
   result o = Raise (SystemExit 0) /\
   exists pre,
     log o = pre ++ log (_try_stake_service 7 registry target staking_program
                          (mkSt (world_after (world (st_of 100 evicted_free []))
                                   [Unstake 7 target]) [])) /\
     unstake_batches pre = 1%nat /\ sent pre = [Unstake 7 target]).
Proof.
  split.
  - destruct (evicted_unstakes_unless_locked (env:=Sim.env) (args false) (st_of 100 evicted_locked [])
                evicted_locked) as [H _];
      [is_snapshot | reflexivity | reflexivity | reflexivity | ].
    destruct H as (H1 & _ & _ & H2); [is_locked|]. exact (conj H1 H2).
  - destruct (evicted_unstakes_unless_locked (env:=Sim.env) (args false) (st_of 100 evicted_free [])
                evicted_free) as [_ H];
      [is_snapshot | reflexivity | reflexivity | reflexivity | ].
    destruct (H ltac:(not_locked) [Unstake 7 target] ltac:(computes) ltac:(is_confirmed))
      as (H1 & _ & pre & H2 & H3 & _ & H4).
    split; [rewrite H1; reflexivity|]. exists pre. exact (conj H2 (conj H3 H4)).
Defined.

Lemma duration_lock_blocks_unstake_witness :
  (let o := decision_engine (args true) (st_of 100 staked_locked []) in
   result o = Raise (SystemExit 1) /\
   unstake_batches (log o) = 0%nat /\ sent (log o) = []) /\
  (let o := decision_engine (args false) (st_of 100 evicted_locked []) in
   result o = Raise (SystemExit 1) /\
   unstake_batches (log o) = 0%nat /\ sent (log o) = []).
Proof.
  split.
  - destruct (duration_lock_blocks_unstake (env:=Sim.env) (args true) (st_of 100 staked_locked [])
                staked_locked) as (_ & H1 & H2 & H3);
      [is_snapshot | reflexivity | is_locked | left; reflexivity | ].
    exact (conj (H1 (or_intror eq_refl)) (conj H2 H3)).
  - destruct (duration_lock_blocks_unstake (env:=Sim.env) (args false) (st_of 100 evicted_locked [])
                evicted_locked) as (_ & H1 & H2 & H3);
      [is_snapshot | reflexivity | is_locked | right; reflexivity | ].
    exact (conj (H1 (or_introl eq_refl)) (conj H2 H3)).
Defined.

(** C3: on the eviction path the rewards are read, the unstake batch is
    sent, and the rewards are read again by the stake attempt. *)
Lemma single_snapshot_fails :
  ~ single_snapshot (args false) (st_of 100 evicted_free []).
Proof.
  intros H. specialize (H FAvailableRewards). vm_compute in H. discriminate H.
Qed.

Lemma reread_after_action_witness :
  read_acted_reread FAvailableRewards
    (log (decision_engine (args false) (st_of 100 evicted_free []))) = true /\
  unstake (args false) = false /\
  is_service_staked (world (st_of 100 evicted_free [])) 7 target = Ok true /\
  is_service_evicted (world (st_of 100 evicted_free [])) 7 target = Ok true.
Proof.
  split; [vm_compute; reflexivity|].
  apply (reread_after_action_only_rewards_when_evicted (env:=Sim.env) (args false)
           (st_of 100 evicted_free []) FAvailableRewards).
  vm_compute. reflexivity.
Defined.

Lemma staked_not_evicted_witness :
  (let o := decision_engine (args false) (st_of 100 staked_no_rewards []) in
   result o = Raise (SystemExit 0) /\
   is_service_staked (world (final o)) 7 target = Ok false /\
   unstake_batches (log o) = 1%nat /\ sent (log o) = [Unstake 7 target]) /\
  (let o := decision_engine (args false) (st_of 100 staked_rewards []) in
   result o = Raise (SystemExit 0) /\
   final o = st_of 100 staked_rewards [] /\
   unstake_batches (log o) = 0%nat /\ sent (log o) = []).
Proof.
  split.
  - destruct (staked_not_evicted_unstakes_iff_no_rewards (env:=Sim.env) (args false)
                (st_of 100 staked_no_rewards []) staked_no_rewards) as [H _];
      [is_snapshot | reflexivity | reflexivity | reflexivity | ].
    destruct (H ltac:(computes) [Unstake 7 target] ltac:(computes) ltac:(is_confirmed))
      as (H1 & Hf & H2 & _ & H3).
    split; [exact H1|]. split; [|exact (conj H2 H3)].
    cbv zeta. rewrite Hf. computes.
  - destruct (staked_not_evicted_unstakes_iff_no_rewards (env:=Sim.env) (args false)
                (st_of 100 staked_rewards []) staked_rewards) as [_ H];
      [is_snapshot | reflexivity | reflexivity | reflexivity | ].
    destruct (H ltac:(discriminate)) as (H1 & Hf & H2 & _ & H3).
    exact (conj H1 (conj Hf (conj H2 H3))).
Defined.

Lemma try_stake_service_cases_witness :
  (let o := _try_stake_service 7 registry target "Coastal" (st_of 100 no_slots []) in
   result o = Raise (SystemExit 1) /\ sent (log o) = []) /\
  (let o := _try_stake_service 7 registry target "Coastal" (st_of 100 no_rewards []) in
   result o = Raise (SystemExit 0) /\ sent (log o) = []) /\
  (let o := _try_stake_service 7 registry target "Coastal" (st_of 100 stakeable []) in
   result o = Raise (SystemExit 0) /\
   sent (log o) = [Approve 7 registry target; Stake 7 target] /\
   stake_batches (log o) = 1%nat).
Proof.
  split; [|split].
  - destruct (try_stake_service_cases (env:=Sim.env) 7 registry target "Coastal"
                (st_of 100 no_slots []) 0 ltac:(computes)) as [H _].
    destruct (H ltac:(lia)) as (H1 & _ & _ & H2 & _). exact (conj H1 H2).
  - destruct (try_stake_service_cases (env:=Sim.env) 7 registry target "Coastal"
                (st_of 100 no_rewards []) 2 ltac:(computes)) as (_ & H & _).
    destruct (H ltac:(lia) ltac:(computes)) as (H1 & _ & _ & H2 & _). exact (conj H1 H2).
  - destruct (try_stake_service_cases (env:=Sim.env) 7 registry target "Coastal"
                (st_of 100 stakeable []) 2 ltac:(computes)) as (_ & _ & H).
    destruct (H ltac:(lia) 500 [Approve 7 registry target; Stake 7 target]
                ltac:(computes) ltac:(discriminate) ltac:(computes) ltac:(is_confirmed))
      as (H1 & _ & _ & H2 & H3 & _).
    exact (conj H1 (conj H2 H3)).
Defined.

Lemma checkpoint_refusal_witness :
  let o := decision_engine (args true) (st_of 100 before_checkpoint [Line "No"]) in
  result o = Raise (SystemExit 1) /\
  unstake_batches (log o) = 0%nat /\ sent (log o) = [].
Proof.
  destruct (checkpoint_refusal_terminates (env:=Sim.env) (args true)
              (st_of 100 before_checkpoint [Line "No"]) before_checkpoint
              "" "No" "140" "200" [])
    as (H1 & _ & H2 & H3);
    [is_snapshot | reflexivity | reflexivity | not_locked | reflexivity
    | reflexivity | reflexivity | reflexivity | reflexivity | ].
  exact (conj H1 (conj H2 H3)).
Defined.

Lemma handler_catches_exception_witness :
  let o := main (argv "") (congested_state 100 staked_no_rewards) in
  result o = Raise (SystemExit 1) /\
  handler_events (log o) =
    [EPrint (MErrorOccurred "TimeExhausted"); ETraceback;
     EUnsetKey "../.trader_runner/.env" "USE_STAKING"; EPrint MConfirmAndRetry].
Proof.
  destruct (handler_catches_exception_once (env:=Sim.env) (argv "")
              (congested_state 100 staked_no_rewards) "TimeExhausted")
    as (H1 & _ & _ & H2); [vm_compute; reflexivity|].
  exact (conj H1 H2).
Defined.

Lemma unstake_argument_witness :
  unstake (parse_args (argv "False")) = true /\
  unstake (parse_args (argv "0")) = true /\
  unstake (parse_args (argv "")) = false /\
  (let o := decision_engine (parse_args (argv "False")) (st_of 100 staked_rewards []) in
   result o = Raise (SystemExit 0) /\ sent (log o) = [Unstake 7 target]).
Proof.
  split; [reflexivity|]. split; [reflexivity|]. split; [|split].
  - destruct (unstake_argument_is_truthiness (env:=Sim.env) (argv ""))
      as [[_ H] _].
    apply H. reflexivity.
  - destruct (unstake_argument_is_truthiness (env:=Sim.env) (argv "False"))
      as [_ H].
    destruct (H ltac:(discriminate) (st_of 100 staked_rewards []) 0 0 5
                ltac:(computes) eq_refl eq_refl) as (H1 & _ & _).
    rewrite H1. vm_compute. reflexivity.
  - destruct (unstake_argument_is_truthiness (env:=Sim.env) (argv "False"))
      as [_ H].
    destruct (H ltac:(discriminate) (st_of 100 staked_rewards []) 0 0 5
                ltac:(computes) eq_refl eq_refl) as (_ & _ & H3).
    rewrite H3. vm_compute. reflexivity.
Defined.

Lemma availability_check_skipped_witness :
  (let o := _unstake_old_program 7 everest "Everest"
              (mkSt (chain 100 staked_on_everest (state_of stakeable)) [Line "Y"]) in
   duration_locked 100 staked_locked /\
   result o = Ok tt /\ fields_read (log o) = [FServiceIds] /\
   sent (log o) = [Unstake 7 everest] /\
   get_service_ids (world (final o)) everest = Ok []) /\
  (let o := _unstake_old_program 7 alpine "Alpine"
              (mkSt (chain 100 staked_on_alpine (state_of stakeable)) [Line ""]) in
   result o = Raise (SystemExit 0) /\ sent (log o) = [] /\
   final o = mkSt (chain 100 staked_on_alpine (state_of stakeable)) []).
Proof.
  split.
  - destruct (availability_check_skipped_for_everest (env:=Sim.env) 7 everest
                (mkSt (chain 100 staked_on_everest (state_of stakeable)) [Line "Y"]))
      as [H _].
    destruct (H [7] "Y" [] [Unstake 7 everest] ltac:(computes) eq_refl eq_refl eq_refl eq_refl
                ltac:(is_confirmed)) as (H1 & Hf & _ & H2 & H3).
    split; [is_locked|]. split; [exact H1|]. split; [exact H2|].
    split; [exact H3|]. cbv zeta. rewrite Hf. computes.
  - destruct (availability_check_skipped_for_everest (env:=Sim.env) 7 alpine
                (mkSt (chain 100 staked_on_alpine (state_of stakeable)) [Line ""]))
      as [_ H].
    destruct (H "Alpine" staked_locked (or_introl eq_refl)) as [_ H'];
      [is_snapshot | reflexivity | ].
    destruct (H' ltac:(is_locked) "" [] ltac:(computes)) as (H1 & Hf & _ & H2).
    exact (conj H1 (conj H2 Hf)).
Defined.


(** *** Runs for the further properties *)

Lemma unstake_requested_when_not_staked_witness :
  decision_engine (args true) (st_of 100 stakeable [Line "yes"]) =
  (Raise (SystemExit 0), st_of 100 stakeable [Line "yes"],
   [EQuery (QNextCheckpointTs target); EQuery (QLivenessPeriod target); ETime;
    EQuery (QAvailableRewards target); EQuery (QIsServiceStaked 7 target);
    EPrint (MNotStaked 7 staking_program)]).
Proof.
  exact (unstake_requested_when_not_staked (env:=Sim.env) (args true)
           (st_of 100 stakeable [Line "yes"]) 0 0 500
           ltac:(computes) ltac:(computes) ltac:(computes) ltac:(computes)
           ltac:(computes)).
Defined.

Lemma explicit_unstake_submits_witness :
  let o := decision_engine (args true)
             (st_of 100 evicted_before_checkpoint [Line ""; Line "YES"; Line "more"]) in
  result o = Raise (SystemExit 0) /\ stdin (final o) = [Line "more"] /\
  unstake_batches (log o) = 1%nat /\ stake_batches (log o) = 0%nat /\
  sent (log o) = [Unstake 7 target].
Proof.
  destruct (explicit_unstake_submits (env:=Sim.env) (args true)
              (st_of 100 evicted_before_checkpoint [Line ""; Line "YES"; Line "more"])
              evicted_before_checkpoint "" "YES" "140" "200" [Line "more"]
              [Unstake 7 target])
    as (H1 & H2 & H3 & H4 & H5);
    [is_snapshot | reflexivity | reflexivity | not_locked | reflexivity
    | intros _; repeat split | reflexivity | is_confirmed | ].
  exact (conj H1 (conj (f_equal stdin H2) (conj H3 (conj H4 H5)))).
Defined.

Lemma not_staked_runs_stake_attempt_witness :
  let o := decision_engine (args false) (st_of 100 stakeable []) in
  let o' := _try_stake_service 7 registry target staking_program
              (st_of 100 stakeable []) in
  result o = result o' /\ final o = final o' /\
  log o =
    [EQuery (QNextCheckpointTs target); EQuery (QLivenessPeriod target); ETime;
     EQuery (QAvailableRewards target); EQuery (QIsServiceStaked 7 target)] ++ log o'.
Proof.
  exact (not_staked_runs_stake_attempt (env:=Sim.env) (args false)
           (st_of 100 stakeable []) 0 0 500
           ltac:(computes) ltac:(computes) ltac:(computes) ltac:(computes)
           ltac:(computes)).
Defined.

Lemma sweep_leaves_unstaked_service_alone_witness :
  let o := _unstake_all_old_programs 7 (st_of 100 stakeable [Line "yes"]) in
  result o = Ok tt /\ final o = st_of 100 stakeable [Line "yes"] /\
  sent (log o) = [].
Proof.
  pose proof (sweep_leaves_unstaked_service_alone (env:=Sim.env) 7
                (st_of 100 stakeable [Line "yes"]) []
                ltac:(computes) ltac:(computes) ltac:(computes) ltac:(computes))
    as H.
  cbn zeta. rewrite H. repeat split.
Defined.

Lemma old_program_refusal_witness :
  (let o := _unstake_old_program 7 everest "Everest"
              (mkSt (chain 100 staked_on_everest (state_of stakeable)) [Line "no"]) in
   result o = Raise (SystemExit 1) /\ sent (log o) = []) /\
  (let o := _unstake_old_program 7 alpine "Alpine"
              (mkSt (chain 100 free_on_alpine (state_of stakeable)) [Line "later"]) in
   result o = Raise (SystemExit 1) /\ sent (log o) = []).
Proof.
  split.
  - destruct (old_program_refusal_ends_run (env:=Sim.env) 7 everest "Everest"
                (mkSt (chain 100 staked_on_everest (state_of stakeable)) [Line "no"])
                "no" [])
      as (H1 & _ & _ & _ & H2);
      [reflexivity | reflexivity
      | intros _; exists [7]; split; reflexivity
      | intros H; vm_compute in H; discriminate H | ].
    exact (conj H1 H2).
  - destruct (old_program_refusal_ends_run (env:=Sim.env) 7 alpine "Alpine"
                (mkSt (chain 100 free_on_alpine (state_of stakeable)) [Line "later"])
                "later" [])
      as (H1 & _ & _ & _ & H2);
      [reflexivity | reflexivity
      | intros H; vm_compute in H; discriminate H
      | intros _; exists staked_rewards; split; [is_snapshot|];
        split; [reflexivity|not_locked] | ].
    exact (conj H1 H2).
Defined.

Lemma sweep_lock_ends_run_witness :
  let o := main (argv "")
             (mkSt (chain 100 staked_on_alpine (state_of stakeable)) [Line ""]) in
  result o = Raise (SystemExit 0) /\
  programs_checked (log o) = ["Everest"; "Alpine"] /\ sent (log o) = [].
Proof.
  destruct (sweep_lock_ends_run_with_status_0 (env:=Sim.env) (argv "")
              (mkSt (chain 100 staked_on_alpine (state_of stakeable)) [Line ""])
              [] staked_locked "" [])
    as (H1 & _ & H2 & _ & H3);
    [reflexivity | reflexivity | reflexivity | reflexivity | is_snapshot
    | reflexivity | is_locked | reflexivity | ].
  exact (conj H1 (conj H2 H3)).
Defined.

Lemma sweep_prompt_at_end_of_file_witness :
  let o := main (argv "")
             (mkSt (chain 100 staked_on_everest (state_of stakeable)) []) in
  result o = Raise (SystemExit 1) /\
  handler_events (log o) =
    [EPrint (MErrorOccurred "EOFError"); ETraceback;
     EUnsetKey "../.trader_runner/.env" "USE_STAKING"; EPrint MConfirmAndRetry] /\
  sent (log o) = [].
Proof.
  destruct (sweep_prompt_at_end_of_file (env:=Sim.env) (argv "")
              (mkSt (chain 100 staked_on_everest (state_of stakeable)) []) [7])
    as (H1 & _ & H2 & _ & H3);
    [reflexivity | reflexivity | reflexivity | reflexivity | reflexivity | ].
  exact (conj H1 (conj H2 H3)).
Defined.

Lemma engine_prompts_witness :
  let o := decision_engine (args false) (st_of 100 evicted_free [Line "yes"]) in
  prompts (log o) = [] /\ stdin (final o) = [Line "yes"].
Proof.
  exact (engine_prompts_only_for_explicit_unstake (env:=Sim.env) (args false)
           (st_of 100 evicted_free [Line "yes"]) eq_refl).
Defined.

(** On a congested chain the first submission of the stake batch fails and
    its second transaction is never sent. *)
Example batch_stops_on_congested_chain :
  let o := for_each [Approve 7 registry target; Stake 7 target] send
             (congested_state 100 stakeable) in
  result o = Raise (Exception "TimeExhausted") /\
  sent (log o) = [Approve 7 registry target].
Proof. vm_compute. split; reflexivity. Qed.

Lemma check_unstaking_availability_witness :
  let o := _check_unstaking_availability (env:=Sim.env) 7 target "Program"
             (st_of 100 staked_locked []) in
  result o = Ok false /\ final o = st_of 100 staked_locked [].
Proof.
  destruct (check_unstaking_availability_spec (env:=Sim.env) 7 target "Program"
              (st_of 100 staked_locked []) 50 100 5)
    as (b & H1 & H2 & _ & H3 & _);
    [reflexivity | reflexivity | reflexivity | ].
  assert (Hb : b = false) by (apply H2; split; [reflexivity | reflexivity]).
  rewrite Hb in H1. exact (conj H1 H3).
Defined.

Lemma check_unstaking_availability_short_info_witness :
  let o := _check_unstaking_availability (env:=Sim.short_info_env) 7 target
             "Program" (st_of 100 staked_locked []) in
  result o = Raise (Py.Exception "IndexError") /\
  fields_read (log o) = [FServiceInfo].
Proof.
  destruct (check_unstaking_availability_short_info (env:=Sim.short_info_env)
              7 target "Program" (st_of 100 staked_locked []) [0; 0; 0])
    as (H1 & _ & H2); [reflexivity | simpl; lia | ].
  exact (conj H1 H2).
Defined.

Lemma old_program_unstaked_witness :
  let o := _unstake_old_program (env:=Sim.env) 7 alpine "Alpine"
             (mkSt (chain 100 free_on_alpine (state_of stakeable)) [Line "yes"]) in
  result o = Ok tt /\ sent (log o) = [Unstake 7 alpine] /\
  is_service_staked (world (final o)) 7 alpine = Ok false.
Proof.
  destruct (old_program_unstaked_after_confirmation (env:=Sim.env) 7 alpine "Alpine"
              (mkSt (chain 100 free_on_alpine (state_of stakeable)) [Line "yes"])
              staked_rewards "yes" [] [Unstake 7 alpine])
    as (H1 & H2 & _ & H3 & _);
    [reflexivity | is_snapshot | reflexivity | not_locked | reflexivity
    | reflexivity | reflexivity | is_confirmed | ].
  split; [exact H1|]. split; [exact H3|].
  cbv zeta. rewrite H2. computes.
Defined.

End Runs.

(** ** Runs of the test harness *)

Section Harness_runs.
Import Harness.

Lemma bytecode_file_is_copied_witness :
  ~ In "module.pyc" (ignore_patterns "src" ["module.pyc"; "module.py"]).
Proof.
  apply (bytecode_and_log_files_are_copied "src" ["module.pyc"; "module.py"]
           "module" ".pyc").
  - left; reflexivity.
  - discriminate.
  - discriminate.
  - intros p Hp. cbn in Hp.
    repeat (destruct Hp as [<-|Hp]; [reflexivity|]). destruct Hp.
Defined.

Lemma check_shutdown_logs_witness :
  let o := check_shutdown_logs lingering in
  result o = Ok false /\ logs_fetched (log o) = ["c1"; "c2"].
Proof.
  destruct (check_shutdown_logs_stops_at_first_error (docker:=sim_docker) lingering
              [sim_container (trader "running" "Stopping agent")]
              [mkContainer "c3" "traderpearl_x" "running"]
              (sim_container (node "running" "Error during shutdown: timeout"))
              "Error during shutdown: timeout")
    as (H1 & H2 & _);
    [reflexivity | reflexivity
    | constructor; [exists "Stopping agent"; split; reflexivity | constructor]
    | reflexivity | reflexivity | ].
  exact (conj H1 H2).
Defined.

Lemma check_docker_status_true_witness :
  observed_running (final (check_docker_status "http://127.0.0.1:8716/healthcheck"
                             "configs/config_predict_trader.json" starting))
    "traderpearl".
Proof.
  exact (check_docker_status_true (docker:=sim_docker)
           "http://127.0.0.1:8716/healthcheck"
           "configs/config_predict_trader.json" starting
           ltac:(vm_compute; reflexivity)).
Defined.

Lemma check_docker_status_healthy_witness :
  let o := check_docker_status "http://127.0.0.1:8716/healthcheck"
             "configs/config_predict_trader.json" healthy in
  result o = Ok true /\ polls (log o) = 1%nat /\ sleeps (log o) = [].
Proof.
  destruct (check_docker_status_healthy (docker:=sim_docker)
              "http://127.0.0.1:8716/healthcheck"
              "configs/config_predict_trader.json" healthy
              (map sim_container [trader "running" ""; node "running" ""])
              (map sim_container [trader "running" ""; node "running" ""]))
    as (H1 & _ & H2 & H3 & _);
    [reflexivity | reflexivity | discriminate
    | repeat constructor; discriminate
    | reflexivity | discriminate | reflexivity | ].
  exact (conj H1 (conj H2 H3)).
Defined.

Lemma setup_environment_filters_path_witness :
  exists temp_env,
    _setup_environment (platform:=unix) sample_environ
    = (Ok tt, temp_env, [SettingUp; SetupCompleted])
    /\ temp_env "PATH" = Some "/usr/bin:/bin".
Proof.
  destruct (setup_environment_filters_path (platform:=unix) sample_environ
              "/home/u/venv" "/home/u/venv/bin:/usr/bin:/bin")
    as (temp_env & new_path & H1 & H2 & H3 & _);
    [reflexivity | discriminate | right; discriminate | reflexivity | ].
  exists temp_env. split; [exact H1|].
  rewrite H2. f_equal.
  rewrite <- (join_split ":"%char new_path).
  change os_pathsep with ":"%char in H3. rewrite H3. reflexivity.
Defined.

Lemma setup_environment_failures_witness :
  (exists temp_env,
     _setup_environment (platform:=broken_venv) sample_environ
     = (Raise (Py.Exception "IndexError"), temp_env, [SettingUp])
     /\ temp_env "PATH" = Some "/home/u/venv/bin:/usr/bin:/bin")
  /\ (exists temp_env,
       _setup_environment (platform:=unix) bare_environ
       = (Raise (Py.Exception "KeyError"), temp_env, [SettingUp])
       /\ temp_env "PATH" = None).
Proof.
  split.
  - destruct (setup_environment_failures (platform:=broken_venv) sample_environ
                "/home/u/venv") as [H _]; [reflexivity | discriminate | ].
    destruct H as (temp_env & H1 & H2); [discriminate | reflexivity | ].
    exists temp_env. split; [exact H1|].
    rewrite H2; [reflexivity | discriminate | discriminate].
  - destruct (setup_environment_failures (platform:=unix) bare_environ
                "/home/u/venv") as [_ H]; [reflexivity | discriminate | ].
    destruct H as (temp_env & H1 & _ & H2);
      [right; discriminate | reflexivity | ].
    exists temp_env. exact (conj H1 H2).
Defined.

End Harness_runs.
